(** * screensaver.turnoff: the Kodi add-on that turns displays off

    A shallow embedding of [screensaver.py].  Python values are a small
    tagged union, dictionaries are association lists in insertion order,
    and the add-on's code runs in a state-and-exception monad whose state
    holds the module globals, the attributes of the one [TurnOffDialog]
    object, and the chronological trace of every call the add-on makes
    into Kodi or the operating system. *)

From Stdlib Require Import ZArith List String Bool Lia.
Import ListNotations.
Open Scope string_scope.
Open Scope list_scope.
Open Scope Z_scope.

(** ** Python values *)

#[local] Set Warnings "-register-all".

Inductive pyval : Type :=
| PyNone
| PyBool (b : bool)
| PyInt (z : Z)
| PyStr (s : string)
| PyList (items : list pyval)
| PyDict (items : list (string * pyval)).

Definition pydict := list (string * pyval).

(** Truth value of an object, as [if x:] and [not x] test it. *)
Definition truthy (v : pyval) : bool :=
  match v with
  | PyNone => false
  | PyBool b => b
  | PyInt z => negb (z =? 0)
  | PyStr s => negb (s =? "")%string
  | PyList l => match l with [] => false | _ => true end
  | PyDict d => match d with [] => false | _ => true end
  end.

(** [v == s] for a string literal [s]. *)
Definition eq_str (v : pyval) (s : string) : bool :=
  match v with
  | PyStr t => (t =? s)%string
  | _ => false
  end.

Module Dict.

Fixpoint lookup (d : pydict) (k : string) : option pyval :=
  match d with
  | [] => None
  | (k', v) :: d' => if (k' =? k)%string then Some v else lookup d' k
  end.

(** [k in d] *)
Definition mem (k : string) (d : pydict) : bool :=
  match lookup d k with Some _ => true | None => false end.

(** [d.update(k=v)]: an existing key keeps its place, a new one goes last. *)
Fixpoint update (d : pydict) (k : string) (v : pyval) : pydict :=
  match d with
  | [] => [(k, v)]
  | (k', v') :: d' =>
      if (k' =? k)%string then (k', v) :: d' else (k', v') :: update d' k v
  end.

Fixpoint remove (d : pydict) (k : string) : pydict :=
  match d with
  | [] => []
  | (k', v) :: d' =>
      if (k' =? k)%string then remove d' k else (k', v) :: remove d' k
  end.

(** Keyword arguments written out followed by [**starred]: a key given
    twice is a [TypeError], reported here as [None]. *)
Fixpoint merge (explicit starred : pydict) : option pydict :=
  match starred with
  | [] => Some explicit
  | (k, v) :: rest =>
      if mem k explicit then None else merge (explicit ++ [(k, v)]) rest
  end.

End Dict.

(** ** The catalogs *)

Definition display_entry (name title function : string)
    (args_off args_on : list pyval) : pyval :=
  PyDict [("name", PyStr name); ("title", PyStr title);
          ("function", PyStr function);
          ("args_off", PyList args_off); ("args_on", PyList args_on)].

Definition power_entry (name title function : string)
    (kwargs_off : pydict) : pyval :=
  PyDict [("name", PyStr name); ("title", PyStr title);
          ("function", PyStr function); ("kwargs_off", PyDict kwargs_off)].

Definition strs (l : list string) : list pyval := map PyStr l.

(** NOTE: the order relates to resources/settings.xml *)
Definition DISPLAY_METHODS : list pyval :=
  [ display_entry "do-nothing" "Do nothing" "log"
      [PyInt 2; PyStr "Do nothing to power off display"]
      [PyInt 2; PyStr "Do nothing to power back on display"];
    display_entry "cec-builtin" "CEC (buil-in)" "run_builtin"
      (strs ["CECStandby"]) (strs ["CECActivateSource"]);
    display_entry "no-signal-rpi" "No Signal on Raspberry Pi (using vcgencmd)"
      "run_command"
      (strs ["vcgencmd"; "display_power"; "0"])
      (strs ["vcgencmd"; "display_power"; "1"]);
    display_entry "dpms-builtin" "DPMS (built-in)" "run_builtin"
      (strs ["ToggleDPMS"]) (strs ["ToggleDPMS"]);
    display_entry "dpms-xset" "DPMS (using xset)" "run_command"
      (strs ["xset"; "dpms"; "force"; "off"])
      (strs ["xset"; "dpms"; "force"; "on"]);
    display_entry "dpms-vbetool" "DPMS (using vbetool)" "run_command"
      (strs ["vbetool"; "dpms"; "off"]) (strs ["vbetool"; "dpms"; "on"]);
    display_entry "dpms-xrandr" "DPMS (using xrandr)" "run_command"
      (strs ["xrandr"; "--output CRT-0"; "off"])
      (strs ["xrandr"; "--output CRT-0"; "on"]);
    display_entry "cec-android" "CEC on Android (kernel)" "run_command"
      (strs ["su"; "-c"; "echo 0 >/sys/devices/virtual/graphics/fb0/cec"])
      (strs ["su"; "-c"; "echo 1 >/sys/devices/virtual/graphics/fb0/cec"]);
    display_entry "backlight-rpi" "Backlight on Raspberry Pi (kernel)"
      "run_command"
      (strs ["su"; "-c"; "echo 1 >/sys/class/backlight/rpi_backlight/bl_power"])
      (strs ["su"; "-c"; "echo 0 >/sys/class/backlight/rpi_backlight/bl_power"]);
    display_entry "backlight-odroid-c2" "Backlight on Odroid C2 (kernel)"
      "run_command"
      (strs ["su"; "-c"; "echo 0 >/sys/class/amhdmitx/amhdmitx0/phy"])
      (strs ["su"; "-c"; "echo 1 >/sys/class/amhdmitx/amhdmitx0/phy"]) ].

Definition POWER_METHODS : list pyval :=
  [ power_entry "do-nothing" "Do nothing" "log"
      [("level", PyInt 2); ("msg", PyStr "Do nothing to power off system")];
    power_entry "suspend-builtin" "Suspend (built-in)" "jsonrpc"
      [("method", PyStr "System.Suspend")];
    power_entry "hibernate-builtin" "Hibernate (built-in)" "jsonrpc"
      [("method", PyStr "System.Hibernate")];
    power_entry "quit-builtin" "Quit (built-in)" "jsonrpc"
      [("method", PyStr "Application.Quit")];
    power_entry "shutdown-builtin" "ShutDown action (built-in)" "jsonrpc"
      [("method", PyStr "System.Shutdown")];
    power_entry "reboot-builtin" "Reboot (built-in)" "jsonrpc"
      [("method", PyStr "System.Reboot")];
    power_entry "powerdown-builtin" "Powerdown (built-in)" "jsonrpc"
      [("method", PyStr "System.Powerdown")] ].

(** ** Exceptions and outcomes *)

Inductive exn : Type :=
| IndexError
| ValueError
| TypeError
| KeyError
| AttributeError
| SystemExit (code : Z).

Inductive outcome (A : Type) : Type :=
| Ret (a : A)
| Raise (e : exn).
Arguments Ret {A} a.
Arguments Raise {A} e.

(** [catalog[index]] on a Python list: a negative index counts from the
    end, and only then is the range checked. *)
Definition getitem {A : Type} (catalog : list A) (index : Z) : outcome A :=
  let n := Z.of_nat (List.length catalog) in
  let j := if index <? 0 then index + n else index in
  if (j <? 0) || (n <=? j) then Raise IndexError
  else match nth_error catalog (Z.to_nat j) with
       | Some entry => Ret entry
       | None => Raise IndexError
       end.

(** ** What the add-on calls: the trace *)

(** The two bound methods the add-on hands out as callbacks. *)
Inductive callable : Type := BoundResume | BoundExit.

Inductive event : Type :=
| Xlog (msg : string) (level : Z)                  (* xbmc.log *)
| ExecuteBuiltin (builtin : string) (wait : bool)    (* xbmc.executebuiltin *)
| ExecuteJSONRPC (request : pydict)                  (* xbmc.executeJSONRPC(dumps(request)) *)
| Popen (command : list string) (kwargs : pydict)    (* subprocess.Popen + communicate *)
| Notification (heading msg icon : string) (delay : Z) (* Dialog().notification *)
| Close                                              (* WindowXMLDialog.close *)
| MonitorCreated (action : option callable)          (* TurnOffMonitor(...) *)
| Dispatch (function : string) (args : list pyval) (kwargs : pydict).
                                                     (* a call made through func *)

(** What [Popen(...).communicate()] comes back with: the combined output
    and the return code, or the [OSError] raised on the way. *)
Inductive popen_result : Type :=
| Completed (out : string) (returncode : Z)
| Failed (exc : string).

(** Kodi, the operating system and the Python library functions the add-on
    calls but does not define.  Replies of the effectful entry points may
    depend on everything that happened before. *)
Record Host : Type := {
  getSetting : string -> string;                          (* Addon().getSetting *)
  getAddonInfo : string -> string;                        (* Addon().getAddonInfo *)
  executeJSONRPC : list event -> string -> string;        (* xbmc.executeJSONRPC *)
  communicate : list event -> list string -> pydict -> popen_result;
  dumps : pydict -> string;                               (* json.dumps *)
  loads : string -> option pyval;                         (* json.loads; None: ValueError *)
  int_of_str : string -> option Z;                        (* int(text); None: ValueError *)
  vformat : string -> pydict -> string                    (* Formatter().vformat(msg, (), SafeDict(..)) *)
}.

(** ** Objects and program state *)

Record TurnOffMonitor : Type := { action : option callable }.

(** The [monitor] attribute of the dialog: removed by [del], or holding
    [None] or a monitor. *)
Inductive slot : Type :=
| Deleted
| Holds (m : option TurnOffMonitor).

Record TurnOffDialog : Type := {
  display : pyval;
  logoff : pyval;
  monitor : slot;
  mute : pyval;
  power : pyval
}.

Record state : Type := {
  trace : list event;
  DEBUG_LOGGING : pyval;
  self : TurnOffDialog;
  atexit_handlers : list callable
}.

Definition add_events (s : state) (t : list event) : state :=
  {| trace := trace s ++ t; DEBUG_LOGGING := DEBUG_LOGGING s;
     self := self s; atexit_handlers := atexit_handlers s |}.

Definition with_self (s : state) (d : TurnOffDialog) : state :=
  {| trace := trace s; DEBUG_LOGGING := DEBUG_LOGGING s;
     self := d; atexit_handlers := atexit_handlers s |}.

Definition with_debug (s : state) (v : pyval) : state :=
  {| trace := trace s; DEBUG_LOGGING := v;
     self := self s; atexit_handlers := atexit_handlers s |}.

(** ** The monad *)

Definition M (A : Type) : Type := state -> outcome A * state.

Definition ret {A} (a : A) : M A := fun s => (Ret a, s).

Definition raise {A} (e : exn) : M A := fun s => (Raise e, s).

Definition bind {A B} (m : M A) (f : A -> M B) : M B :=
  fun s =>
    match m s with
    | (Ret a, s') => f a s'
    | (Raise e, s') => (Raise e, s')
    end.

Notation "x <- m ;; k" := (bind m (fun x => k))
  (at level 61, m at next level, right associativity).
Notation "m ;; k" := (bind m (fun _ => k))
  (at level 61, right associativity).

Definition get : M state := fun s => (Ret s, s).

Definition emit (e : event) : M unit := fun s => (Ret tt, add_events s [e]).

Definition lift {A} (o : outcome A) : M A := fun s => (o, s).

Definition when (b : bool) (m : M unit) : M unit := if b then m else ret tt.

Definition set_self (f : TurnOffDialog -> TurnOffDialog) : M unit :=
  fun s => (Ret tt, with_self s (f (self s))).

(** [v.get(key, default)] *)
Definition dict_get (v : pyval) (key : string) (default : pyval) : M pyval :=
  match v with
  | PyDict d => ret (match Dict.lookup d key with Some x => x | None => default end)
  | _ => raise AttributeError
  end.

(** [*v] in a call; the add-on only ever spreads the lists of a catalog entry. *)
Definition star (v : pyval) : M (list pyval) :=
  match v with
  | PyList l => ret l
  | _ => raise TypeError
  end.

(** [**v] in a call *)
Definition starstar (v : pyval) : M pydict :=
  match v with
  | PyDict d => ret d
  | _ => raise TypeError
  end.

(** ** The add-on *)

Section Addon.

Variable h : Host.

(** Text is one type here, so both conversions leave it alone. *)
Definition from_unicode (text : string) : string := text.
Definition to_unicode (text : string) : string := text.

Definition ADDON_ID : string := to_unicode (getAddonInfo h "id").
Definition ADDON_PATH : string := to_unicode (getAddonInfo h "path").
Definition ADDON_ICON : string := to_unicode (getAddonInfo h "icon").

(** [int(v)] *)
Definition int (v : pyval) : outcome Z :=
  match v with
  | PyInt z => Ret z
  | PyBool b => Ret (if b then 1 else 0)
  | PyStr s => match int_of_str h s with
               | Some z => Ret z
               | None => Raise ValueError
               end
  | _ => Raise TypeError
  end.

(** Get an add-on setting *)
Definition get_setting (setting_id : string) (default : pyval) : pyval :=
  let value := to_unicode (getSetting h setting_id) in
  if (value =? "")%string && negb (match default with PyNone => true | _ => false end)
  then default
  else PyStr value.

Definition xlog (msg : string) (level : Z) : M unit := emit (Xlog msg level).

(** Log info messages to Kodi *)
Definition log (level : Z) (msg : string) (kwargs : pydict) : M unit :=
  max_log_level <- lift (int (get_setting "max_log_level" (PyInt 0))) ;;
  s <- get ;;
  let debug := truthy (DEBUG_LOGGING s) in
  if negb debug && negb ((level <=? max_log_level) && negb (max_log_level =? 0))
  then ret tt
  else
    let msg := if truthy (PyDict kwargs) then vformat h msg kwargs else msg in
    let msg := ("[" ++ ADDON_ID ++ "] " ++ msg)%string in
    xlog (from_unicode msg) (if debug then level mod 3 else 2).

(** Log error messages to Kodi *)
Definition log_error (msg : string) (kwargs : pydict) : M unit :=
  let msg := if truthy (PyDict kwargs) then vformat h msg kwargs else msg in
  let msg := ("[" ++ ADDON_ID ++ "] " ++ msg)%string in
  xlog (from_unicode msg) 4.

(** Perform JSONRPC calls *)
Definition jsonrpc (kwargs : pydict) : M pyval :=
  let kwargs := if Dict.mem "id" kwargs then kwargs
                else Dict.update kwargs "id" (PyInt 1) in
  let kwargs := if Dict.mem "jsonrpc" kwargs then kwargs
                else Dict.update kwargs "jsonrpc" (PyStr "2.0") in
  s <- get ;;
  emit (ExecuteJSONRPC kwargs) ;;
  match loads h (executeJSONRPC h (trace s) (dumps h kwargs)) with
  | None => raise ValueError
  | Some result =>
      log 3 "Sending JSON-RPC payload: '{payload}' returns '{result}'"
          [("payload", PyDict kwargs); ("result", result)] ;;
      ret result
  end.

(** Get a Kodi setting *)
Definition get_global_setting (setting : string) : M pyval :=
  result <- jsonrpc [("method", PyStr "Settings.GetSettingValue");
                     ("params", PyDict [("setting", PyStr setting)])] ;;
  r <- dict_get result "result" (PyDict []) ;;
  dict_get r "value" PyNone.

(** Bring up a pop-up with a meaningful error *)
Definition popup (heading msg : string) (delay : Z) (icon : string) : M unit :=
  let heading := if negb (truthy (PyStr heading))
                 then ("Addon " ++ ADDON_ID ++ " failed")%string else heading in
  let icon := if negb (truthy (PyStr icon)) then ADDON_ICON else icon in
  emit (Notification heading msg icon delay).

(** Set mute using Kodi JSON-RPC interface *)
Definition set_mute (toggle : bool) : M unit :=
  jsonrpc [("method", PyStr "Application.SetMute");
           ("params", PyDict [("mute", PyBool toggle)])] ;;
  ret tt.

Definition activate_window (window : string) : M unit :=
  jsonrpc [("method", PyStr "GUI.ActivateWindow");
           ("params", PyDict [("window", PyStr window)])] ;;
  ret tt.

(** Run Kodi builtins *)
Definition run_builtin (builtin : string) : M unit :=
  log 2 "Executing builtin '{builtin}'" [("builtin", PyStr builtin)] ;;
  emit (ExecuteBuiltin builtin true).

(** [command[0]] *)
Definition first (command : list string) : M string :=
  lift (getitem command 0).

(** [' '.join(command)] *)
Definition join (command : list string) : string := String.concat " " command.

(** Run commands on the OS.  [stderr] is folded into [stdout], so the
    [err] half of [communicate()] is always [None]: its branch never runs
    and its [%s] rendering is the word None. *)
Definition run_command (command : list string) (kwargs : pydict) : M unit :=
  s <- get ;;
  emit (Popen command kwargs) ;;
  match communicate h (trace s) command kwargs with
  | Completed out returncode =>
      if returncode =? 0 then
        log 2 "Running command '{command}' returned rc={rc}"
            [("command", PyStr (join command)); ("rc", PyInt returncode)]
      else
        log_error "Running command '{command}' failed with rc={rc}"
            [("command", PyStr (join command)); ("rc", PyInt returncode)] ;;
        when (truthy (PyStr out))
          (c0 <- first command ;;
           log_error "Command '{command}' returned on stdout: {stdout} "
               [("command", PyStr c0); ("stdout", PyStr out)]) ;;
        popup "" (out ++ String (Ascii.ascii_of_nat 10) "None")%string 10000 "" ;;
        raise (SystemExit 1)
  | Failed exc =>
      c0 <- first command ;;
      log_error "Exception running '{command}': {exc}"
          [("command", PyStr c0); ("exc", PyStr exc)] ;;
      c0' <- first command ;;
      popup "" ("Exception running '" ++ c0' ++ "': " ++ exc)%string 10000 "" ;;
      raise (SystemExit 2)
  end.

(** *** Calling by name

    [func] looks a function up by its name and applies it to positional
    and keyword arguments.  The four names the catalogs use are bound
    here, each with Python's rules for matching the arguments against
    the function's signature. *)

Definition or_default (o : option pyval) (default : pyval) : pyval :=
  match o with Some v => v | None => default end.

(** [log], with parameters level=1, msg and further keywords *)
Definition call_log (args : list pyval) (kwargs : pydict) : M pyval :=
  let bound :=
    match args with
    | [] => Some (or_default (Dict.lookup kwargs "level") (PyInt 1),
                  or_default (Dict.lookup kwargs "msg") (PyStr ""),
                  Dict.remove (Dict.remove kwargs "level") "msg")
    | [l] => if Dict.mem "level" kwargs then None
             else Some (l, or_default (Dict.lookup kwargs "msg") (PyStr ""),
                        Dict.remove kwargs "msg")
    | [l; m] => if Dict.mem "level" kwargs || Dict.mem "msg" kwargs then None
                else Some (l, m, kwargs)
    | _ => None
    end in
  match bound with
  | Some (PyInt level, PyStr msg, rest) => log level msg rest ;; ret PyNone
  | _ => raise TypeError
  end.

(** [run_builtin(builtin)] *)
Definition call_run_builtin (args : list pyval) (kwargs : pydict) : M pyval :=
  match args, kwargs with
  | [PyStr builtin], [] => run_builtin builtin ;; ret PyNone
  | [], [(k, PyStr builtin)] =>
      if (k =? "builtin")%string then run_builtin builtin ;; ret PyNone
      else raise TypeError
  | _, _ => raise TypeError
  end.

Fixpoint all_str (args : list pyval) : option (list string) :=
  match args with
  | [] => Some []
  | PyStr s :: rest =>
      match all_str rest with Some l => Some (s :: l) | None => None end
  | _ => None
  end.

(** [run_command], called with any number of positional arguments *)
Definition call_run_command (args : list pyval) (kwargs : pydict) : M pyval :=
  match all_str args with
  | Some command => run_command command kwargs ;; ret PyNone
  | None => raise TypeError
  end.

(** [jsonrpc], which takes keyword arguments only *)
Definition call_jsonrpc (args : list pyval) (kwargs : pydict) : M pyval :=
  match args with
  | [] => jsonrpc kwargs
  | _ => raise TypeError
  end.

(** [globals()[function]], for the names a catalog entry can carry. *)
Definition globals (function : string)
  : option (list pyval -> pydict -> M pyval) :=
  if (function =? "log")%string then Some call_log
  else if (function =? "run_builtin")%string then Some call_run_builtin
  else if (function =? "run_command")%string then Some call_run_command
  else if (function =? "jsonrpc")%string then Some call_jsonrpc
  else None.

(** Execute a global function with arguments.  The call is noted in the
    trace before it is made. *)
Definition func (function : pyval) (args : list pyval) (kwargs : pydict)
  : M pyval :=
  match function with
  | PyStr name =>
      match globals name with
      | Some f => emit (Dispatch name args kwargs) ;; f args kwargs
      | None => raise KeyError
      end
  | _ => raise KeyError
  end.

(** *** TurnOffMonitor *)

(** [TurnOffMonitor(action=...)]: keeps [kwargs.get('action')]. *)
Definition new_TurnOffMonitor (act : option callable) : M TurnOffMonitor :=
  emit (MonitorCreated act) ;;
  ret {| action := act |}.

(** *** TurnOffDialog *)

(** [TurnOffDialog.__init__] *)
Definition TurnOffDialog_init : M unit :=
  fun s =>
    (Ret tt,
     {| trace := trace s; DEBUG_LOGGING := DEBUG_LOGGING s;
        self := {| display := PyNone; logoff := PyNone;
                   monitor := Holds None; mute := PyNone; power := PyNone |};
        atexit_handlers := atexit_handlers s ++ [BoundExit] |}).

Definition set_display (v : pyval) : M unit :=
  set_self (fun d => {| display := v; logoff := logoff d;
                        monitor := monitor d; mute := mute d; power := power d |}).
Definition set_logoff (v : pyval) : M unit :=
  set_self (fun d => {| display := display d; logoff := v;
                        monitor := monitor d; mute := mute d; power := power d |}).
Definition set_monitor (v : slot) : M unit :=
  set_self (fun d => {| display := display d; logoff := logoff d;
                        monitor := v; mute := mute d; power := power d |}).
Definition set_mute_attr (v : pyval) : M unit :=
  set_self (fun d => {| display := display d; logoff := logoff d;
                        monitor := monitor d; mute := v; power := power d |}).
Definition set_power (v : pyval) : M unit :=
  set_self (fun d => {| display := display d; logoff := logoff d;
                        monitor := monitor d; mute := mute d; power := v |}).

(** [log(1, msg=template, **entry)] *)
Definition log_entry (template : string) (entry : pyval) : M unit :=
  items <- starstar entry ;;
  match Dict.merge [("msg", PyStr template)] items with
  | Some kwargs => call_log [PyInt 1] kwargs ;; ret tt
  | None => raise TypeError
  end.

(** Perform this when the screensaver is started *)
Definition onInit : M unit :=
  set_logoff (get_setting "logoff" (PyStr "false")) ;;
  set_mute_attr (get_setting "mute" (PyStr "true")) ;;

  display_method <- lift (int (get_setting "display_method" (PyInt 0))) ;;
  d <- lift (getitem DISPLAY_METHODS display_method) ;;
  set_display d ;;

  power_method <- lift (int (get_setting "power_method" (PyInt 0))) ;;
  p <- lift (getitem POWER_METHODS power_method) ;;
  set_power p ;;

  s <- get ;;
  dname <- dict_get (display (self s)) "name" PyNone ;;
  pname <- dict_get (power (self s)) "name" PyNone ;;
  log 3 "display_method={display}, power_method={power}, logoff={logoff}, mute={mute}"
      [("display", dname); ("power", pname);
       ("logoff", logoff (self s)); ("mute", mute (self s))] ;;

  (* Turn off display *)
  when (negb (eq_str dname "do-nothing"))
       (log_entry "Turn display off using method '{name}'" (display (self s))) ;;
  f <- dict_get (display (self s)) "function" PyNone ;;
  a <- dict_get (display (self s)) "args_off" PyNone ;;
  args <- star a ;;
  func f args [] ;;

  (* Log off user *)
  when (eq_str (logoff (self s)) "true")
       (log 1 "Log off user" [] ;;
        activate_window "loginscreen") ;;

  (* Mute audio *)
  when (eq_str (mute (self s)) "true")
       (log 1 "Mute audio" [] ;;
        set_mute true) ;;

  m <- new_TurnOffMonitor (Some BoundResume) ;;
  set_monitor (Holds (Some m)) ;;

  (* Power off system *)
  when (negb (eq_str pname "do-nothing"))
       (log_entry "Turn system off using method '{name}'" (power (self s))) ;;
  f <- dict_get (power (self s)) "function" PyNone ;;
  k <- dict_get (power (self s)) "kwargs_off" (PyDict []) ;;
  kwargs <- starstar k ;;
  func f [] kwargs ;;
  ret tt.

(** [hasattr(self, 'monitor')] *)
Definition hasattr_monitor (d : TurnOffDialog) : bool :=
  match monitor d with Deleted => false | Holds _ => true end.

(** [del self.monitor] *)
Definition del_monitor : M unit :=
  s <- get ;;
  match monitor (self s) with
  | Deleted => raise AttributeError
  | Holds _ => set_monitor Deleted
  end.

(** [self.close()] *)
Definition close : M unit := emit Close.

(** Clean up function *)
Definition exit : M unit :=
  s <- get ;;
  when (hasattr_monitor (self s)) del_monitor ;;
  close.

(** Perform this when the Screensaver is stopped *)
Definition resume : M unit :=
  s <- get ;;
  (* Unmute audio *)
  when (eq_str (mute (self s)) "true")
       (log 1 "Unmute audio" [] ;;
        set_mute false) ;;

  (* Turn on display *)
  dname <- dict_get (display (self s)) "name" PyNone ;;
  when (negb (eq_str dname "do-nothing"))
       (log_entry "Turn display back on using method '{name}'" (display (self s))) ;;
  f <- dict_get (display (self s)) "function" PyNone ;;
  a <- dict_get (display (self s)) "args_on" PyNone ;;
  args <- star a ;;
  func f args [] ;;

  (* Clean up everything *)
  exit.

(** Calling a stored bound method. *)
Definition call (c : callable) : M unit :=
  match c with
  | BoundResume => resume
  | BoundExit => exit
  end.

(** [TurnOffMonitor.onScreensaverDeactivated] *)
Definition onScreensaverDeactivated (m : TurnOffMonitor) : M unit :=
  match action m with
  | Some c => call c
  | None => raise TypeError
  end.

(** The handlers registered with [atexit] run last-in first-out when
    the interpreter goes down; what one raises is reported and dropped. *)
Definition run_atexit : M unit :=
  fun s =>
    (Ret tt,
     fold_left (fun s' c => snd (call c s')) (rev (atexit_handlers s)) s).

(** Module load: [DEBUG_LOGGING] is 0 until the host's debug flag is read. *)
Definition module_init : M unit :=
  (fun s => (Ret tt, with_debug s (PyInt 0))) ;;
  v <- get_global_setting "debug.showloginfo" ;;
  fun s => (Ret tt, with_debug s v).

End Addon.

(** ** Concrete hosts

    Used to run the add-on on explicit configurations. *)

Module Demo.

Definition digit (c : Ascii.ascii) : option Z :=
  let n := Z.of_nat (Ascii.nat_of_ascii c) in
  if (48 <=? n) && (n <=? 57) then Some (n - 48) else None.

Fixpoint digits (acc : Z) (s : string) : option Z :=
  match s with
  | EmptyString => Some acc
  | String c rest =>
      match digit c with
      | Some d => digits (10 * acc + d) rest
      | None => None
      end
  end.

(** Decimal numerals with an optional minus sign; enough of [int] for
    the settings used below. *)
Definition parse_int (s : string) : option Z :=
  match s with
  | EmptyString => None
  | String c rest =>
      if Ascii.eqb c (Ascii.ascii_of_nat 45)
      then match rest with
           | EmptyString => None
           | _ => option_map Z.opp (digits 0 rest)
           end
      else digits 0 s
  end.

Fixpoint setting (settings : list (string * string)) (k : string) : string :=
  match settings with
  | [] => ""
  | (k', v) :: rest => if (k' =? k)%string then v else setting rest k
  end.

(** A host with the given settings, whose commands all end as [proc]
    says and whose JSON-RPC replies all parse to [reply]; messages are
    logged with their placeholders left in. *)
Definition host (settings : list (string * string))
    (proc : list string -> popen_result) (reply : option pyval) : Host :=
  {| getSetting := setting settings;
     getAddonInfo := fun k => if (k =? "id")%string then "screensaver.turnoff" else "";
     executeJSONRPC := fun _ _ => "";
     communicate := fun _ command _ => proc command;
     dumps := fun _ => "";
     loads := fun _ => reply;
     int_of_str := parse_int;
     vformat := fun msg _ => msg |}.

Definition ok_reply : pyval :=
  PyDict [("id", PyInt 1); ("jsonrpc", PyStr "2.0"); ("result", PyStr "OK")].

(** The state right after the dialog object is constructed. *)
Definition fresh : state :=
  {| trace := []; DEBUG_LOGGING := PyBool false;
     self := {| display := PyNone; logoff := PyNone; monitor := Holds None;
                mute := PyNone; power := PyNone |};
     atexit_handlers := [BoundExit] |}.

End Demo.


(** ** Vocabulary of the statements *)

(** The request [jsonrpc] sends for the keyword arguments it is given. *)
Definition envelope (kwargs : pydict) : pydict :=
  let kwargs := if Dict.mem "id" kwargs then kwargs
                else Dict.update kwargs "id" (PyInt 1) in
  if Dict.mem "jsonrpc" kwargs then kwargs
  else Dict.update kwargs "jsonrpc" (PyStr "2.0").

(** For the events of interest [P]: run from [s], [m] appends events to the trace, and those of interest
    among them are exactly [l] when [m] returns, and the first few of [l]
    when it raises. *)
Definition marks_at (P : event -> bool) {A} (m : M A) (s : state) (l : list event) : Prop :=
  exists t,
    trace (snd (m s)) = trace s ++ t /\
    match fst (m s) with
    | Ret _ => filter P t = l
    | Raise _ => exists rest, l = filter P t ++ rest
    end.

Definition marks (P : event -> bool) {A} (m : M A) (l : list event) : Prop :=
  forall s, marks_at P m s l.

(** The calls a dispatch through [func] leaves in the trace when it runs
    to the end, log lines and notifications apart. *)
Definition calls (function : pyval) (args : list pyval) (kwargs : pydict)
  : list event :=
  match function with
  | PyStr name =>
      if (name =? "log")%string then [Dispatch name args kwargs]
      else if (name =? "run_builtin")%string then
        Dispatch name args kwargs ::
        match args, kwargs with
        | [PyStr builtin], [] => [ExecuteBuiltin builtin true]
        | [], [(k, PyStr builtin)] =>
            if (k =? "builtin")%string then [ExecuteBuiltin builtin true] else []
        | _, _ => []
        end
      else if (name =? "run_command")%string then
        Dispatch name args kwargs ::
        match all_str args with
        | Some command => [Popen command kwargs]
        | None => []
        end
      else if (name =? "jsonrpc")%string then
        Dispatch name args kwargs ::
        match args with
        | [] => [ExecuteJSONRPC (envelope kwargs)]
        | _ => []
        end
      else []
  | _ => []
  end.

Definition is_xlog (e : event) : bool :=
  match e with Xlog _ _ => true | _ => false end.

Module DemoRemote.

Definition setting_reply : pyval :=
  PyDict [("id", PyInt 1); ("jsonrpc", PyStr "2.0");
          ("result", PyDict [("value", PyBool true)])].

Definition error_reply : pyval :=
  PyDict [("error", PyDict [("code", PyInt (-32602));
                            ("message", PyStr "Invalid params.")]);
          ("id", PyInt 1); ("jsonrpc", PyStr "2.0")].

Definition answering (reply : pyval) : Host :=
  Demo.host [] (fun _ => Completed "" 0) (Some reply).

Definition get_debug : pydict :=
  [("method", PyStr "Settings.GetSettingValue");
   ("params", PyDict [("setting", PyStr "debug.showloginfo")])].

Definition set_mute_on : pydict :=
  [("method", PyStr "Application.SetMute");
   ("params", PyDict [("mute", PyBool true)])].

End DemoRemote.


Module DemoCommand.



End DemoCommand.

Module DemoIndex.

(** display_method is 99; everything else is left at its default. *)
Definition beyond : Host :=
  Demo.host [("display_method", "99")] (fun _ => Completed "" 0)
    (Some Demo.ok_reply).

(** display_method is -1; everything else is left at its default. *)
Definition minus_one : Host :=
  Demo.host [("display_method", "-1")] (fun _ => Completed "" 0)
    (Some Demo.ok_reply).

End DemoIndex.

(** [m] takes every state to one related to it by [R]. *)
Definition keeps (R : state -> state -> Prop) {A} (m : M A) : Prop :=
  forall s, R s (snd (m s)).

(** [s'] is [s] with events appended and nothing else changed. *)
Definition extends (s s' : state) : Prop := exists t, s' = add_events s t.

(** The dialog's configuration and the module globals are the same in
    both states. *)
Definition same_config (s s' : state) : Prop :=
  display (self s') = display (self s) /\
  logoff (self s') = logoff (self s) /\
  mute (self s') = mute (self s) /\
  power (self s') = power (self s) /\
  DEBUG_LOGGING s' = DEBUG_LOGGING s /\
  atexit_handlers s' = atexit_handlers s.

(** Everything the add-on does to the host or the system, apart from
    writing log lines, showing notifications and closing its dialog. *)
Definition is_call (e : event) : bool :=
  match e with
  | Xlog _ _ | Notification _ _ _ _ | Close => false
  | _ => true
  end.

Definition logoff_request : pydict :=
  [("method", PyStr "GUI.ActivateWindow");
   ("params", PyDict [("window", PyStr "loginscreen")]);
   ("id", PyInt 1); ("jsonrpc", PyStr "2.0")].

Definition mute_request (toggle : bool) : pydict :=
  [("method", PyStr "Application.SetMute");
   ("params", PyDict [("mute", PyBool toggle)]);
   ("id", PyInt 1); ("jsonrpc", PyStr "2.0")].

Module DemoOrder.

(** DPMS through xset, suspend, log off and mute; commands succeed. *)
Definition living_room : Host :=
  Demo.host [("display_method", "4"); ("power_method", "1");
             ("logoff", "true"); ("mute", "true")]
    (fun _ => Completed "" 0) (Some Demo.ok_reply).

End DemoOrder.

Module DemoDefaults.

(** Nothing is stored: every setting reads as the empty string. *)
Definition unconfigured : Host :=
  Demo.host [] (fun _ => Completed "" 0) (Some Demo.ok_reply).

End DemoDefaults.

(** The host's mute flag after the requests of a trace: each
    Application.SetMute request sets it to the request's mute parameter. *)
Definition mute_after (muted : bool) (t : list event) : bool :=
  fold_left
    (fun m e =>
       match e with
       | ExecuteJSONRPC request =>
           if eq_str (or_default (Dict.lookup request "method") PyNone)
                "Application.SetMute"
           then match Dict.lookup request "params" with
                | Some (PyDict params) =>
                    match Dict.lookup params "mute" with
                    | Some (PyBool b) => b
                    | _ => m
                    end
                | _ => m
                end
           else m
       | _ => m
       end)
    t muted.

Module DemoResume.

(** Nothing configured but the log level, so the do-nothing entries
    write their lines. *)
Definition logging : Host :=
  Demo.host [("max_log_level", "2")] (fun _ => Completed "" 0)
    (Some Demo.ok_reply).

(** The session once [onInit] has run. *)
Definition active : state := snd (onInit logging Demo.fresh).

(** CEC through the built-in, mute left at its default. *)
Definition cec : Host :=
  Demo.host [("display_method", "1")] (fun _ => Completed "" 0)
    (Some Demo.ok_reply).

Definition watching : state := snd (onInit cec Demo.fresh).

Definition the_monitor : TurnOffMonitor := {| action := Some BoundResume |}.

End DemoResume.




Definition display_do_nothing : pyval :=
  display_entry "do-nothing" "Do nothing" "log"
    [PyInt 2; PyStr "Do nothing to power off display"]
    [PyInt 2; PyStr "Do nothing to power back on display"].

Definition power_do_nothing : pyval :=
  power_entry "do-nothing" "Do nothing" "log"
    [("level", PyInt 2); ("msg", PyStr "Do nothing to power off system")].

(** Appending events of kind [Q] only, and changing nothing else. *)
Definition appends (Q : event -> bool) (s s' : state) : Prop :=
  exists t, s' = add_events s t /\ forallb Q t = true.

Definition is_notification (e : event) : bool :=
  match e with Notification _ _ _ _ => true | _ => false end.

(** Log lines and notifications: what a command's failure is reported
    with. *)
Definition is_report (e : event) : bool := is_xlog e || is_notification e.

(** A request carries id 1 and jsonrpc 2.0; events that are no requests
    pass. *)
Definition has_envelope (e : event) : bool :=
  match e with
  | ExecuteJSONRPC request =>
      match Dict.lookup request "id", Dict.lookup request "jsonrpc" with
      | Some (PyInt 1), Some (PyStr version) => (version =? "2.0")%string
      | _, _ => false
      end
  | _ => true
  end.

(** The exceptions an activation or a resume can end in once the methods
    are resolved: an unreadable setting or reply, or a command that
    failed. *)
Definition is_expected (e : exn) : bool :=
  match e with
  | ValueError => true
  | SystemExit code => (code =? 1) || (code =? 2)
  | _ => false
  end.

(** [m] raises exceptions of kind [E] only. *)
Definition throws (E : exn -> bool) {A} (m : M A) : Prop :=
  forall s e, fst (m s) = Raise e -> E e = true.

(** No exception at all. *)
Definition never (e : exn) : bool := false.

(** A host on which nothing goes wrong: the log level can be read, every
    reply parses, and every command runs and ends with return code 0. *)
Definition healthy (h : Host) : Prop :=
  (exists max_log_level,
     int h (get_setting h "max_log_level" (PyInt 0)) = Ret max_log_level) /\
  (forall history request,
     exists reply,
       loads h (executeJSONRPC h history (dumps h request)) = Some reply) /\
  (forall history command kwargs,
     exists out, communicate h history command kwargs = Completed out 0).

(** Run from [s], [m] raises exceptions of kind [E] only. *)
Definition throws_at (E : exn -> bool) {A} (m : M A) (s : state) : Prop :=
  forall e, fst (m s) = Raise e -> E e = true.

(** The handlers registered with [atexit] are the same in both states. *)
Definition same_handlers (s s' : state) : Prop :=
  atexit_handlers s' = atexit_handlers s.

Module DemoExtra.

(** The log level is stored as a word. *)
Definition unreadable_level : Host :=
  Demo.host [("max_log_level", "verbose")] (fun _ => Completed "" 0)
    (Some Demo.ok_reply).

(** The display method is stored as a word. *)
Definition unreadable_index : Host :=
  Demo.host [("display_method", "first")] (fun _ => Completed "" 0)
    (Some Demo.ok_reply).

(** Log level 3: every line of the add-on is written. *)
Definition verbose : Host :=
  Demo.host [("max_log_level", "3")] (fun _ => Completed "" 0)
    (Some Demo.ok_reply).

(** DPMS through xset, but xset ends with return code 5. *)
Definition broken_xset : Host :=
  Demo.host [("display_method", "4")] (fun _ => Completed "boom" 5)
    (Some Demo.ok_reply).

(** The host's replies do not parse. *)
Definition garbled : Host :=
  Demo.host [] (fun _ => Completed "" 0) None.

(** A fresh state with the host's debug logging switched on. *)
Definition debugging : state :=
  {| trace := []; DEBUG_LOGGING := PyBool true;
     self := self Demo.fresh; atexit_handlers := [BoundExit] |}.

(** Before the dialog object exists. *)
Definition blank : state :=
  {| trace := []; DEBUG_LOGGING := PyInt 0;
     self := self Demo.fresh; atexit_handlers := [] |}.

End DemoExtra.

(** ** Reasoning about traces *)

Section Marks.

Variable P : event -> bool.

Lemma marks_at_bind {A B} (m : M A) (k : A -> M B) s l1 l2 :
  marks_at P m s l1 ->
  (forall a s', m s = (Ret a, s') -> marks_at P (k a) s' l2) ->
  marks_at P (bind m k) s (l1 ++ l2).
Proof.
  unfold marks_at, bind. intros (t1 & Ht1 & Hl1) Hk.
  destruct (m s) as [[a | e] s'] eqn:Hm; simpl in *.
  - destruct (Hk a s' eq_refl) as (t2 & Ht2 & Hl2).
    exists (t1 ++ t2). split.
    + rewrite Ht2, Ht1. now rewrite app_assoc.
    + destruct (fst (k a s')).
      * now rewrite filter_app, Hl1, Hl2.
      * destruct Hl2 as (rest & ->). exists rest.
        now rewrite filter_app, Hl1, app_assoc.
  - exists t1. split; [assumption|].
    destruct Hl1 as (rest & ->). exists (rest ++ l2).
    now rewrite app_assoc.
Qed.

Lemma marks_bind {A B} (m : M A) (k : A -> M B) l1 l2 :
  marks P m l1 -> (forall a, marks P (k a) l2) -> marks P (bind m k) (l1 ++ l2).
Proof.
  intros Hm Hk s. apply marks_at_bind; [apply Hm | intros; apply Hk].
Qed.

Lemma marks_bind_nil {A B} (m : M A) (k : A -> M B) l :
  marks P m [] -> (forall a, marks P (k a) l) -> marks P (bind m k) l.
Proof. intros. now apply (marks_bind m k [] l). Qed.

Lemma marks_at_bind_nil {A B} (m : M A) (k : A -> M B) s l :
  marks P m [] -> (forall a s', marks_at P (k a) s' l) ->
  marks_at P (bind m k) s l.
Proof.
  intros Hm Hk. apply (marks_at_bind m k s [] l); [apply Hm | intros; apply Hk].
Qed.

Lemma marks_ret {A} (a : A) : marks P (ret a) [].
Proof. intros s. exists []. simpl. now rewrite app_nil_r. Qed.

Lemma marks_raise {A} (e : exn) l : marks P (@raise A e) l.
Proof.
  intros s. exists []. simpl. split; [now rewrite app_nil_r | now exists l].
Qed.

Lemma marks_lift {A} (o : outcome A) l : 
  (forall a, o = Ret a -> l = []) -> marks P (lift o) l.
Proof.
  intros Ho s. exists []. simpl. split; [now rewrite app_nil_r|].
  destruct o; [symmetry; eauto | now exists l].
Qed.

Lemma marks_get : marks P get [].
Proof. intros s. exists []. simpl. now rewrite app_nil_r. Qed.

Lemma marks_set_self f : marks P (set_self f) [].
Proof. intros s. exists []. simpl. now rewrite app_nil_r. Qed.

Lemma marks_emit e : marks P (emit e) (filter P [e]).
Proof. intros s. exists [e]. now simpl. Qed.

Lemma marks_when b m l :
  marks P m l -> marks P (when b m) (if b then l else []).
Proof. destruct b; simpl; [trivial | intros _; apply marks_ret]. Qed.

Lemma marks_when_nil b m : marks P m [] -> marks P (when b m) [].
Proof. destruct b; simpl; [trivial | intros _; apply marks_ret]. Qed.

(** A step that leaves the state alone and returns [a] can be run
    symbolically. *)
Lemma marks_at_step {A B} (m : M A) (k : A -> M B) s a s' l :
  m s = (Ret a, s') -> trace s' = trace s ->
  marks_at P (k a) s' l -> marks_at P (bind m k) s l.
Proof.
  intros Hm Htr (t & Ht & Hl). unfold marks_at, bind. rewrite Hm.
  exists t. rewrite <- Htr. now split.
Qed.

Lemma marks_at_stop {A B} (m : M A) (k : A -> M B) s e s' l :
  m s = (Raise e, s') -> trace s' = trace s ->
  marks_at P (bind m k) s l.
Proof.
  intros Hm Htr. unfold marks_at, bind. rewrite Hm. simpl.
  exists []. rewrite Htr, app_nil_r. split; [reflexivity | now exists l].
Qed.

End Marks.

Section Actions.

Variable h : Host.
Variable P : event -> bool.
Hypothesis P_log : forall msg level, P (Xlog msg level) = false.
Hypothesis P_notification :
  forall heading msg icon delay, P (Notification heading msg icon delay) = false.

Lemma filter_cons_app (e : event) (l : list event) :
  filter P (e :: l) = filter P [e] ++ filter P l.
Proof. simpl. now destruct (P e). Qed.

Lemma marks_bind_r {A B} (m : M A) (k : A -> M B) l :
  marks P m l -> (forall a, marks P (k a) []) -> marks P (bind m k) l.
Proof.
  intros Hm Hk. rewrite <- (app_nil_r l). now apply marks_bind.
Qed.

Lemma marks_xlog msg level : marks P (xlog msg level) [].
Proof.
  unfold xlog. generalize (marks_emit P (Xlog msg level)).
  simpl. now rewrite P_log.
Qed.

Lemma marks_log level msg kwargs : marks P (log h level msg kwargs) [].
Proof.
  unfold log. apply marks_bind_nil.
  - apply marks_lift. reflexivity.
  - intros max_log_level. apply marks_bind_nil; [apply marks_get|].
    intros s.
    destruct (negb (truthy (DEBUG_LOGGING s)) &&
              negb ((level <=? max_log_level) && negb (max_log_level =? 0))).
    + apply marks_ret.
    + apply marks_xlog.
Qed.

Lemma marks_log_error msg kwargs : marks P (log_error h msg kwargs) [].
Proof. unfold log_error. apply marks_xlog. Qed.

Lemma marks_popup heading msg delay icon :
  marks P (popup h heading msg delay icon) [].
Proof.
  unfold popup.
  match goal with |- marks _ (emit ?e) _ => generalize (marks_emit P e) end.
  simpl. now rewrite P_notification.
Qed.

Lemma marks_jsonrpc kwargs :
  marks P (jsonrpc h kwargs) (filter P [ExecuteJSONRPC (envelope kwargs)]).
Proof.
  unfold jsonrpc. apply marks_bind_nil; [apply marks_get|]. intros s.
  fold (envelope kwargs).
  apply marks_bind_r; [apply marks_emit|]. intros _.
  destruct (loads h _); [|apply marks_raise].
  apply marks_bind_nil; [apply marks_log | intros; apply marks_ret].
Qed.

Lemma marks_set_mute toggle :
  marks P (set_mute h toggle)
    (filter P [ExecuteJSONRPC
                 (envelope [("method", PyStr "Application.SetMute");
                            ("params", PyDict [("mute", PyBool toggle)])])]).
Proof.
  unfold set_mute. apply marks_bind_r; [apply marks_jsonrpc|].
  intros; apply marks_ret.
Qed.

Lemma marks_activate_window window :
  marks P (activate_window h window)
    (filter P [ExecuteJSONRPC
                 (envelope [("method", PyStr "GUI.ActivateWindow");
                            ("params", PyDict [("window", PyStr window)])])]).
Proof.
  unfold activate_window. apply marks_bind_r; [apply marks_jsonrpc|].
  intros; apply marks_ret.
Qed.

Lemma marks_run_builtin builtin :
  marks P (run_builtin h builtin) (filter P [ExecuteBuiltin builtin true]).
Proof.
  unfold run_builtin. apply marks_bind_nil; [apply marks_log|].
  intros; apply marks_emit.
Qed.

Lemma marks_first command : marks P (first command) [].
Proof. unfold first. apply marks_lift. reflexivity. Qed.

Lemma marks_run_command command kwargs :
  marks P (run_command h command kwargs) (filter P [Popen command kwargs]).
Proof.
  unfold run_command. apply marks_bind_nil; [apply marks_get|]. intros s.
  apply marks_bind_r; [apply marks_emit|]. intros _.
  destruct (communicate h _ _ _) as [out rc | exc].
  - destruct (rc =? 0); [apply marks_log|].
    apply marks_bind_nil; [apply marks_log_error|]. intros _.
    apply marks_bind_nil.
    { apply marks_when_nil.
      apply marks_bind_nil; [apply marks_first|].
      intros; apply marks_log_error. }
    destruct (truthy (PyStr out)); intros _;
      (apply marks_bind_nil; [apply marks_popup | intros; apply marks_raise]).
  - apply marks_bind_nil; [apply marks_first|]. intros c0.
    apply marks_bind_nil; [apply marks_log_error|]. intros _.
    apply marks_bind_nil; [apply marks_first|]. intros c0'.
    apply marks_bind_nil; [apply marks_popup | intros; apply marks_raise].
Qed.

Lemma marks_call_log args kwargs : marks P (call_log h args kwargs) [].
Proof.
  unfold call_log.
  match goal with |- marks _ (match ?b with _ => _ end) _ => destruct b as [[[v1 v2] rest]|] end;
    [|apply marks_raise].
  destruct v1; try apply marks_raise.
  destruct v2; try apply marks_raise.
  apply marks_bind_nil; [apply marks_log | intros; apply marks_ret].
Qed.

Lemma marks_log_entry template entry :
  marks P (log_entry h template entry) [].
Proof.
  unfold log_entry. apply marks_bind_nil.
  - destruct entry; simpl; try apply marks_raise. apply marks_ret.
  - intros items. destruct (Dict.merge _ _); [|apply marks_raise].
    apply marks_bind_nil; [apply marks_call_log | intros; apply marks_ret].
Qed.

Lemma marks_func function args kwargs :
  marks P (func h function args kwargs) (filter P (calls function args kwargs)).
Proof.
  unfold func, calls, globals.
  destruct function as [| | |name| |]; try apply marks_raise.
  destruct (name =? "log")%string.
  { apply marks_bind_r; [apply marks_emit | intros; apply marks_call_log]. }
  destruct (name =? "run_builtin")%string.
  { rewrite filter_cons_app. apply marks_bind; [apply marks_emit|]. intros _.
    unfold call_run_builtin.
    destruct args as [|[| | |b| |] [|]]; try apply marks_raise.
    - destruct kwargs as [|[k [| | |b| |]] [|]]; try apply marks_raise.
      destruct (k =? "builtin")%string; [|apply marks_raise].
      apply marks_bind_r; [apply marks_run_builtin | intros; apply marks_ret].
    - destruct kwargs; [|apply marks_raise].
      apply marks_bind_r; [apply marks_run_builtin | intros; apply marks_ret]. }
  destruct (name =? "run_command")%string.
  { rewrite filter_cons_app. apply marks_bind; [apply marks_emit|]. intros _.
    unfold call_run_command.
    destruct (all_str args); [|apply marks_raise].
    apply marks_bind_r; [apply marks_run_command | intros; apply marks_ret]. }
  destruct (name =? "jsonrpc")%string.
  { rewrite filter_cons_app. apply marks_bind; [apply marks_emit|]. intros _.
    unfold call_jsonrpc.
    destruct args; [apply marks_jsonrpc | apply marks_raise]. }
  apply marks_raise.
Qed.

Lemma marks_new_TurnOffMonitor act :
  marks P (new_TurnOffMonitor act) (filter P [MonitorCreated act]).
Proof.
  unfold new_TurnOffMonitor. apply marks_bind_r; [apply marks_emit|].
  intros; apply marks_ret.
Qed.

Lemma marks_exit : marks P exit (filter P [Close]).
Proof.
  unfold exit. apply marks_bind_nil; [apply marks_get|]. intros s.
  apply marks_bind_nil; [|intros; apply marks_emit].
  apply marks_when_nil.
  unfold del_monitor. apply marks_bind_nil; [apply marks_get|]. intros s'.
  destruct (monitor (self s')); [apply marks_raise | apply marks_set_self].
Qed.

End Actions.

(** ** Resolving a configured index *)

Lemma nth_error_in_range {A} (l : list A) (n : nat) :
  (n < List.length l)%nat -> exists x, nth_error l n = Some x.
Proof.
  intros Hn. destruct (nth_error l n) eqn:E; [eauto|].
  apply nth_error_None in E. lia.
Qed.

Lemma getitem_nonnegative {A} (catalog : list A) (i : Z) :
  0 <= i < Z.of_nat (List.length catalog) ->
  exists entry, nth_error catalog (Z.to_nat i) = Some entry /\
                getitem catalog i = Ret entry.
Proof.
  unfold getitem. set (n := Z.of_nat (List.length catalog)). intros Hi.
  destruct (nth_error_in_range catalog (Z.to_nat i)) as [x Hx]; [lia|].
  exists x. split; [assumption|].
  replace (i <? 0) with false by (symmetry; apply Z.ltb_ge; lia).
  replace ((i <? 0) || (n <=? i)) with false; [now rewrite Hx|].
  symmetry. apply orb_false_iff. split; [apply Z.ltb_ge | apply Z.leb_gt]; lia.
Qed.

Lemma getitem_negative {A} (catalog : list A) (i : Z) :
  - Z.of_nat (List.length catalog) <= i < 0 ->
  exists entry,
    nth_error catalog (Z.to_nat (i + Z.of_nat (List.length catalog))) = Some entry /\
    getitem catalog i = Ret entry.
Proof.
  unfold getitem. set (n := Z.of_nat (List.length catalog)). intros Hi.
  destruct (nth_error_in_range catalog (Z.to_nat (i + n))) as [x Hx]; [lia|].
  exists x. split; [assumption|].
  replace (i <? 0) with true by (symmetry; apply Z.ltb_lt; lia).
  replace ((i + n <? 0) || (n <=? i + n)) with false; [now rewrite Hx|].
  symmetry. apply orb_false_iff. split; [apply Z.ltb_ge | apply Z.leb_gt]; lia.
Qed.

Lemma getitem_outside {A} (catalog : list A) (i : Z) :
  Z.of_nat (List.length catalog) <= i \/ i < - Z.of_nat (List.length catalog) ->
  getitem catalog i = Raise IndexError.
Proof.
  unfold getitem. set (n := Z.of_nat (List.length catalog)). intros [Hi | Hi].
  - replace (i <? 0) with false by (symmetry; apply Z.ltb_ge; lia).
    replace (n <=? i) with true by (symmetry; apply Z.leb_le; lia).
    now rewrite orb_true_r.
  - replace (i <? 0) with true by (symmetry; apply Z.ltb_lt; lia).
    replace (i + n <? 0) with true by (symmetry; apply Z.ltb_lt; lia).
    reflexivity.
Qed.

Lemma getitem_in {A} (catalog : list A) (i : Z) (entry : A) :
  getitem catalog i = Ret entry -> In entry catalog.
Proof.
  unfold getitem.
  destruct (_ || _); [discriminate|].
  destruct (nth_error _ _) eqn:E; [|discriminate].
  intros [= <-]. eapply nth_error_In; eassumption.
Qed.

(** C1 (as the code has it): an index in [0, len) selects the entry at
    that position; an index in [-len, 0) selects the entry at position
    len + index, counting from the end; every other index (at or above
    len, or below -len) fails with IndexError. *)
Theorem getitem_positions {A} (catalog : list A) (i : Z) :
  (0 <= i < Z.of_nat (List.length catalog) ->
   exists entry, nth_error catalog (Z.to_nat i) = Some entry /\
                 getitem catalog i = Ret entry) /\
  (- Z.of_nat (List.length catalog) <= i < 0 ->
   exists entry,
     nth_error catalog (Z.to_nat (i + Z.of_nat (List.length catalog))) = Some entry /\
     getitem catalog i = Ret entry) /\
  (Z.of_nat (List.length catalog) <= i \/ i < - Z.of_nat (List.length catalog) ->
   getitem catalog i = Raise IndexError).
Proof.
  split; [apply getitem_nonnegative|].
  split; [apply getitem_negative | apply getitem_outside].
Qed.

Lemma getitem_positions_witness :
  (0 <= 2 < Z.of_nat (List.length POWER_METHODS) /\
   exists entry, nth_error POWER_METHODS (Z.to_nat 2) = Some entry /\
                 getitem POWER_METHODS 2 = Ret entry) /\
  (- Z.of_nat (List.length POWER_METHODS) <= -7 < 0 /\
   exists entry,
     nth_error POWER_METHODS
       (Z.to_nat (-7 + Z.of_nat (List.length POWER_METHODS))) = Some entry /\
     getitem POWER_METHODS (-7) = Ret entry) /\
  ((Z.of_nat (List.length DISPLAY_METHODS) <= 99 \/
    99 < - Z.of_nat (List.length DISPLAY_METHODS)) /\
   getitem DISPLAY_METHODS 99 = Raise IndexError).
Proof.
  split; [|split].
  - split; [simpl; lia|].
    apply (proj1 (getitem_positions POWER_METHODS 2)). simpl; lia.
  - split; [simpl; lia|].
    apply (proj1 (proj2 (getitem_positions POWER_METHODS (-7)))). simpl; lia.
  - split; [left; simpl; lia|].
    apply (proj2 (proj2 (getitem_positions DISPLAY_METHODS 99))).
    left. simpl. lia.
Defined.

(** C1 as stated fails: index -1 is outside [0, 10), yet the display
    catalog answers it with its last entry instead of an IndexError. *)
Lemma getitem_negative_index :
  ~ (0 <= -1 < Z.of_nat (List.length DISPLAY_METHODS)) /\
  getitem DISPLAY_METHODS (-1) =
    Ret (display_entry "backlight-odroid-c2" "Backlight on Odroid C2 (kernel)"
           "run_command"
           (strs ["su"; "-c"; "echo 0 >/sys/class/amhdmitx/amhdmitx0/phy"])
           (strs ["su"; "-c"; "echo 1 >/sys/class/amhdmitx/amhdmitx0/phy"])) /\
  getitem DISPLAY_METHODS (-1) <> Raise IndexError.
Proof.
  split; [lia|]. split; [reflexivity | discriminate].
Qed.

(** ** Remote calls *)

Lemma lookup_update_same d k v : Dict.lookup (Dict.update d k v) k = Some v.
Proof.
  induction d as [|[k' v'] d IH]; simpl.
  - now rewrite String.eqb_refl.
  - destruct (k' =? k)%string eqn:E; simpl; rewrite E; [reflexivity | exact IH].
Qed.

Lemma lookup_update_other d k v k' :
  k <> k' -> Dict.lookup (Dict.update d k v) k' = Dict.lookup d k'.
Proof.
  intros Hk. induction d as [|[k0 v0] d IH]; simpl.
  - destruct (k =? k')%string eqn:E; [apply String.eqb_eq in E; contradiction | reflexivity].
  - destruct (k0 =? k)%string eqn:E; simpl.
    + apply String.eqb_eq in E. subst k0.
      destruct (k =? k')%string eqn:E'; [apply String.eqb_eq in E'; contradiction | reflexivity].
    + destruct (k0 =? k')%string; [reflexivity | exact IH].
Qed.

Lemma mem_false_lookup k d : Dict.mem k d = false -> Dict.lookup d k = None.
Proof. unfold Dict.mem. now destruct (Dict.lookup d k). Qed.

Lemma envelope_fresh kwargs :
  Dict.mem "id" kwargs = false -> Dict.mem "jsonrpc" kwargs = false ->
  envelope kwargs =
    Dict.update (Dict.update kwargs "id" (PyInt 1)) "jsonrpc" (PyStr "2.0").
Proof.
  intros Hid Hrpc. unfold envelope. rewrite Hid.
  unfold Dict.mem at 1.
  rewrite lookup_update_other by discriminate.
  now rewrite (mem_false_lookup _ _ Hrpc).
Qed.

(** What [log] does to the state: it appends at most log lines. *)
Lemma log_run h level msg kwargs s max_log_level :
  int h (get_setting h "max_log_level" (PyInt 0)) = Ret max_log_level ->
  exists t, log h level msg kwargs s = (Ret tt, add_events s t) /\
            forallb is_xlog t = true.
Proof.
  intros Hint. unfold log, bind, lift, get, xlog, emit, ret. rewrite Hint.
  destruct (negb (truthy (DEBUG_LOGGING s)) &&
            negb ((level <=? max_log_level) && negb (max_log_level =? 0))).
  - exists []. split; [|reflexivity]. unfold add_events.
    rewrite app_nil_r. now destruct s.
  - eexists [_]. split; reflexivity.
Qed.

(** C3 as stated fails: [jsonrpc] hands back the whole reply.  Where the
    reply carries the result OK, the value returned is the reply around it,
    not OK; where the reply carries no result field, the value returned is
    that reply, not an empty mapping. *)
Lemma jsonrpc_returns_whole_reply :
  (fst (jsonrpc (DemoRemote.answering Demo.ok_reply)
          DemoRemote.set_mute_on Demo.fresh) =
     Ret (PyDict [("id", PyInt 1); ("jsonrpc", PyStr "2.0");
                  ("result", PyStr "OK")]) /\
   fst (jsonrpc (DemoRemote.answering Demo.ok_reply)
          DemoRemote.set_mute_on Demo.fresh) <> Ret (PyStr "OK")) /\
  (fst (jsonrpc (DemoRemote.answering DemoRemote.error_reply)
          DemoRemote.set_mute_on Demo.fresh) = Ret DemoRemote.error_reply /\
   Dict.mem "result"
     [("error", PyDict [("code", PyInt (-32602));
                        ("message", PyStr "Invalid params.")]);
      ("id", PyInt 1); ("jsonrpc", PyStr "2.0")] = false /\
   fst (jsonrpc (DemoRemote.answering DemoRemote.error_reply)
          DemoRemote.set_mute_on Demo.fresh) <> Ret (PyDict [])).
Proof.
  repeat split; try reflexivity; vm_compute; discriminate.
Qed.

(** ** Running a command *)

Lemma add_events_app s t1 t2 :
  add_events (add_events s t1) t2 = add_events s (t1 ++ t2).
Proof. unfold add_events. simpl. now rewrite app_assoc. Qed.

Lemma first_cons c0 rest s : first (c0 :: rest) s = (Ret c0, s).
Proof.
  unfold first, lift, getitem.
  change (List.length (c0 :: rest)) with (S (List.length rest)).
  replace ((if 0 <? 0 then 0 + Z.of_nat (S (List.length rest)) else 0)) with 0
    by reflexivity.
  replace ((0 <? 0) || (Z.of_nat (S (List.length rest)) <=? 0)) with false.
  - reflexivity.
  - symmetry. apply orb_false_iff. split; [reflexivity | apply Z.leb_gt; lia].
Qed.



(** ** Teardown *)

Lemma bind_returns {A B} (m : M A) (k : A -> M B) s b s2 :
  bind m k s = (Ret b, s2) ->
  exists a s1, m s = (Ret a, s1) /\ k a s1 = (Ret b, s2).
Proof.
  unfold bind. destruct (m s) as [[a | e] s1]; [eauto | discriminate].
Qed.

Lemma exit_run s :
  exit s = (Ret tt, add_events (with_self s {| display := display (self s);
                                               logoff := logoff (self s);
                                               monitor := Deleted;
                                               mute := mute (self s);
                                               power := power (self s) |}) [Close]).
Proof.
  unfold exit, bind, get, hasattr_monitor, del_monitor, bind, get, close, emit.
  destruct s as [t dbg [d l m mu p] ax]; destruct m; reflexivity.
Qed.

(** The guard is what keeps the second call alive: deleting the attribute
    once more would raise. *)
Lemma del_monitor_twice s :
  monitor (self s) = Deleted -> fst (del_monitor s) = Raise AttributeError.
Proof. intros H. unfold del_monitor, bind, get. now rewrite H. Qed.

(** C9: [exit] never fails, and leaves the monitor attribute removed;
    called again on the state it left, it only closes the dialog once
    more.  This holds after [resume], which ends in [exit], however
    [resume] itself ended: the exit handler that runs when the process
    goes down meets a dialog whose monitor is already gone and returns
    normally. *)
Theorem exit_is_repeatable (h : Host) (s : state) :
  fst (exit s) = Ret tt /\
  monitor (self (snd (exit s))) = Deleted /\
  exit (snd (exit s)) = (Ret tt, add_events (snd (exit s)) [Close]) /\
  fst (exit (snd (resume h s))) = Ret tt /\
  fst (run_atexit h (snd (resume h s))) = Ret tt /\
  (fst (resume h s) = Ret tt ->
   monitor (self (snd (resume h s))) = Deleted /\
   exit (snd (resume h s)) = (Ret tt, add_events (snd (resume h s)) [Close])).
Proof.
  assert (Hagain : forall s', monitor (self s') = Deleted ->
                     exit s' = (Ret tt, add_events s' [Close])).
  { intros s' H. rewrite exit_run.
    destruct s' as [t dbg [d l m mu p] ax]. simpl in H. now subst m. }
  repeat split; try (rewrite exit_run; reflexivity).
  - apply Hagain. rewrite exit_run. reflexivity.
  - assert (Hmon : monitor (self (snd (resume h s))) = Deleted).
    { destruct (resume h s) as [o s2] eqn:Hres. simpl in H. subst o.
      unfold resume in Hres.
      do 8 (apply bind_returns in Hres; destruct Hres as (? & ? & _ & Hres)).
      rewrite exit_run in Hres. now inversion Hres. }
    exact Hmon.
  - apply Hagain.
    destruct (resume h s) as [o s2] eqn:Hres. simpl in H. subst o.
    unfold resume in Hres.
    do 8 (apply bind_returns in Hres; destruct Hres as (? & ? & _ & Hres)).
    rewrite exit_run in Hres. now inversion Hres.
Qed.

(** ** Running a program step by step *)

Lemma bind_lift_ret {A B} (a : A) (k : A -> M B) s :
  bind (lift (Ret a)) k s = k a s.
Proof. reflexivity. Qed.

Lemma bind_lift_raise {A B} (e : exn) (k : A -> M B) s :
  bind (lift (Raise e)) k s = (Raise e, s).
Proof. reflexivity. Qed.

Lemma bind_set_self {B} f (k : unit -> M B) s :
  bind (set_self f) k s = k tt (with_self s (f (self s))).
Proof. reflexivity. Qed.

Lemma bind_get {B} (k : state -> M B) s : bind get k s = k s s.
Proof. reflexivity. Qed.

(** ** Activation with an index the catalog cannot answer *)

(** C6 (as the code has it): when the display index, or else the power
    index, is one the catalog lookup rejects (at or above the catalog's
    length, or below minus its length), [onInit] ends in IndexError
    having made no call at all: nothing is appended to the trace, no
    monitor is created.  An index in [-len, 0) is not rejected. *)
Theorem onInit_rejected_index h s i :
  int h (get_setting h "display_method" (PyInt 0)) = Ret i ->
  (Z.of_nat (List.length DISPLAY_METHODS) <= i \/
   i < - Z.of_nat (List.length DISPLAY_METHODS)) \/
  (- Z.of_nat (List.length DISPLAY_METHODS) <= i
     < Z.of_nat (List.length DISPLAY_METHODS) /\
   exists j,
     int h (get_setting h "power_method" (PyInt 0)) = Ret j /\
     (Z.of_nat (List.length POWER_METHODS) <= j \/
      j < - Z.of_nat (List.length POWER_METHODS))) ->
  fst (onInit h s) = Raise IndexError /\
  trace (snd (onInit h s)) = trace s /\
  monitor (self (snd (onInit h s))) = monitor (self s).
Proof.
  intros Hi Hbad.
  unfold onInit, set_logoff, set_mute_attr, set_display, set_power.
  rewrite !bind_set_self, Hi, bind_lift_ret.
  destruct Hbad as [Hout | (Hin & j & Hj & Hout)].
  - rewrite (getitem_outside _ _ Hout), bind_lift_raise. now repeat split.
  - assert (exists d, getitem DISPLAY_METHODS i = Ret d) as (d & Hd).
    { destruct (Z_lt_le_dec i 0).
      - destruct (getitem_negative DISPLAY_METHODS i) as (d & _ & Hd); [lia | eauto].
      - destruct (getitem_nonnegative DISPLAY_METHODS i) as (d & _ & Hd); [lia | eauto]. }
    rewrite Hd, bind_lift_ret, bind_set_self, Hj, bind_lift_ret.
    rewrite (getitem_outside _ _ Hout), bind_lift_raise. now repeat split.
Qed.

Lemma onInit_rejected_index_witness :
  int DemoIndex.beyond (get_setting DemoIndex.beyond "display_method" (PyInt 0))
    = Ret 99 /\
  fst (onInit DemoIndex.beyond Demo.fresh) = Raise IndexError /\
  trace (snd (onInit DemoIndex.beyond Demo.fresh)) = trace Demo.fresh /\
  monitor (self (snd (onInit DemoIndex.beyond Demo.fresh))) =
    monitor (self Demo.fresh).
Proof.
  split; [reflexivity|].
  apply (onInit_rejected_index DemoIndex.beyond Demo.fresh 99).
  - reflexivity.
  - left. left. simpl. lia.
Defined.

(** C6 as stated fails: -1 lies outside [0, 10), yet with display_method
    set to -1 the activation goes through with the catalog's last entry
    and starts its command. *)
Lemma onInit_negative_index_runs :
  int DemoIndex.minus_one
    (get_setting DemoIndex.minus_one "display_method" (PyInt 0)) = Ret (-1) /\
  ~ (0 <= -1 < Z.of_nat (List.length DISPLAY_METHODS)) /\
  fst (onInit DemoIndex.minus_one Demo.fresh) = Ret tt /\
  trace (snd (onInit DemoIndex.minus_one Demo.fresh)) =
    [Dispatch "run_command"
       (strs ["su"; "-c"; "echo 0 >/sys/class/amhdmitx/amhdmitx0/phy"]) [];
     Popen ["su"; "-c"; "echo 0 >/sys/class/amhdmitx/amhdmitx0/phy"] [];
     ExecuteJSONRPC [("method", PyStr "Application.SetMute");
                     ("params", PyDict [("mute", PyBool true)]);
                     ("id", PyInt 1); ("jsonrpc", PyStr "2.0")];
     MonitorCreated (Some BoundResume);
     Dispatch "log" []
       [("level", PyInt 2); ("msg", PyStr "Do nothing to power off system")]].
Proof.
  split; [reflexivity|]. split; [simpl; lia|]. split; reflexivity.
Qed.

(** ** What an action leaves untouched *)

Section Keeps.

Variable R : state -> state -> Prop.
Hypothesis R_refl : forall s, R s s.
Hypothesis R_trans : forall s1 s2 s3, R s1 s2 -> R s2 s3 -> R s1 s3.

Lemma keeps_bind {A B} (m : M A) (k : A -> M B) :
  keeps R m -> (forall a, keeps R (k a)) -> keeps R (bind m k).
Proof.
  intros Hm Hk s. unfold bind. specialize (Hm s).
  destruct (m s) as [[a | e] s1]; simpl in *; [|assumption].
  eapply R_trans; [eassumption | apply Hk].
Qed.

Lemma keeps_ret {A} (a : A) : keeps R (ret a).
Proof. intros s. apply R_refl. Qed.

Lemma keeps_raise {A} e : keeps R (@raise A e).
Proof. intros s. apply R_refl. Qed.

Lemma keeps_lift {A} (o : outcome A) : keeps R (lift o).
Proof. intros s. apply R_refl. Qed.

Lemma keeps_get : keeps R get.
Proof. intros s. apply R_refl. Qed.

Lemma keeps_when b m : keeps R m -> keeps R (when b m).
Proof. destruct b; simpl; [trivial | intros _; apply keeps_ret]. Qed.

End Keeps.

Lemma extends_refl s : extends s s.
Proof.
  exists []. unfold add_events. rewrite app_nil_r. now destruct s.
Qed.

Lemma extends_trans s1 s2 s3 : extends s1 s2 -> extends s2 s3 -> extends s1 s3.
Proof.
  intros [t1 ->] [t2 ->]. exists (t1 ++ t2). apply add_events_app.
Qed.

Section Extends.

Variable h : Host.

Local Abbreviation quiet := (keeps extends).

Ltac quiet_bind :=
  apply (keeps_bind extends extends_trans).

Lemma quiet_ret {A} (a : A) : quiet (ret a).
Proof. apply keeps_ret, extends_refl. Qed.

Lemma quiet_raise {A} e : quiet (@raise A e).
Proof. apply keeps_raise, extends_refl. Qed.

Lemma quiet_lift {A} (o : outcome A) : quiet (lift o).
Proof. apply keeps_lift, extends_refl. Qed.

Lemma quiet_get : quiet get.
Proof. apply keeps_get, extends_refl. Qed.

Lemma quiet_emit e : quiet (emit e).
Proof. intros s. now exists [e]. Qed.

Lemma quiet_when b m : quiet m -> quiet (when b m).
Proof. apply keeps_when, extends_refl. Qed.

Lemma quiet_dict_get v key default : quiet (dict_get v key default).
Proof. destruct v; simpl; first [apply quiet_raise | apply quiet_ret]. Qed.

Lemma quiet_star v : quiet (star v).
Proof. destruct v; simpl; first [apply quiet_raise | apply quiet_ret]. Qed.

Lemma quiet_starstar v : quiet (starstar v).
Proof. destruct v; simpl; first [apply quiet_raise | apply quiet_ret]. Qed.

Lemma quiet_log level msg kwargs : quiet (log h level msg kwargs).
Proof.
  unfold log. quiet_bind; [apply quiet_lift|]. intros max_log_level.
  quiet_bind; [apply quiet_get|]. intros s.
  destruct (_ && _); [apply quiet_ret | apply quiet_emit].
Qed.

Lemma quiet_log_error msg kwargs : quiet (log_error h msg kwargs).
Proof. apply quiet_emit. Qed.

Lemma quiet_popup heading msg delay icon : quiet (popup h heading msg delay icon).
Proof. apply quiet_emit. Qed.

Lemma quiet_jsonrpc kwargs : quiet (jsonrpc h kwargs).
Proof.
  unfold jsonrpc. quiet_bind; [apply quiet_get|]. intros s.
  quiet_bind; [apply quiet_emit|]. intros _.
  destruct (loads h _); [|apply quiet_raise].
  quiet_bind; [apply quiet_log | intros; apply quiet_ret].
Qed.

Lemma quiet_set_mute toggle : quiet (set_mute h toggle).
Proof.
  unfold set_mute. quiet_bind; [apply quiet_jsonrpc | intros; apply quiet_ret].
Qed.

Lemma quiet_activate_window window : quiet (activate_window h window).
Proof.
  unfold activate_window.
  quiet_bind; [apply quiet_jsonrpc | intros; apply quiet_ret].
Qed.

Lemma quiet_run_builtin builtin : quiet (run_builtin h builtin).
Proof.
  unfold run_builtin. quiet_bind; [apply quiet_log | intros; apply quiet_emit].
Qed.

Lemma quiet_run_command command kwargs : quiet (run_command h command kwargs).
Proof.
  unfold run_command. quiet_bind; [apply quiet_get|]. intros s.
  quiet_bind; [apply quiet_emit|]. intros _.
  destruct (communicate h _ _ _) as [out rc | exc].
  - destruct (rc =? 0); [apply quiet_log|].
    quiet_bind; [apply quiet_log_error|]. intros _.
    quiet_bind.
    { apply quiet_when. quiet_bind; [apply quiet_lift|].
      intros; apply quiet_log_error. }
    intros _. quiet_bind; [apply quiet_popup | intros; apply quiet_raise].
  - quiet_bind; [apply quiet_lift|]. intros c0.
    quiet_bind; [apply quiet_log_error|]. intros _.
    quiet_bind; [apply quiet_lift|]. intros c0'.
    quiet_bind; [apply quiet_popup | intros; apply quiet_raise].
Qed.

Lemma quiet_call_log args kwargs : quiet (call_log h args kwargs).
Proof.
  unfold call_log.
  match goal with |- keeps _ (match ?b with _ => _ end) => destruct b as [[[v1 v2] rest]|] end;
    [|apply quiet_raise].
  destruct v1; try apply quiet_raise.
  destruct v2; try apply quiet_raise.
  quiet_bind; [apply quiet_log | intros; apply quiet_ret].
Qed.

Lemma quiet_log_entry template entry : quiet (log_entry h template entry).
Proof.
  unfold log_entry. quiet_bind; [apply quiet_starstar|]. intros items.
  destruct (Dict.merge _ _); [|apply quiet_raise].
  quiet_bind; [apply quiet_call_log | intros; apply quiet_ret].
Qed.

Lemma quiet_func function args kwargs : quiet (func h function args kwargs).
Proof.
  unfold func, globals.
  destruct function as [| | |name| |]; try apply quiet_raise.
  destruct (name =? "log")%string.
  { quiet_bind; [apply quiet_emit | intros; apply quiet_call_log]. }
  destruct (name =? "run_builtin")%string.
  { quiet_bind; [apply quiet_emit|]. intros _. unfold call_run_builtin.
    destruct args as [|[| | |b| |] [|]]; try apply quiet_raise.
    - destruct kwargs as [|[k [| | |b| |]] [|]]; try apply quiet_raise.
      destruct (k =? "builtin")%string; [|apply quiet_raise].
      quiet_bind; [apply quiet_run_builtin | intros; apply quiet_ret].
    - destruct kwargs; [|apply quiet_raise].
      quiet_bind; [apply quiet_run_builtin | intros; apply quiet_ret]. }
  destruct (name =? "run_command")%string.
  { quiet_bind; [apply quiet_emit|]. intros _. unfold call_run_command.
    destruct (all_str args); [|apply quiet_raise].
    quiet_bind; [apply quiet_run_command | intros; apply quiet_ret]. }
  destruct (name =? "jsonrpc")%string.
  { quiet_bind; [apply quiet_emit|]. intros _. unfold call_jsonrpc.
    destruct args; [apply quiet_jsonrpc | apply quiet_raise]. }
  apply quiet_raise.
Qed.

Lemma quiet_new_TurnOffMonitor act : quiet (new_TurnOffMonitor act).
Proof.
  unfold new_TurnOffMonitor.
  quiet_bind; [apply quiet_emit | intros; apply quiet_ret].
Qed.

End Extends.

Lemma same_config_refl s : same_config s s.
Proof. now repeat split. Qed.

Lemma same_config_trans s1 s2 s3 :
  same_config s1 s2 -> same_config s2 s3 -> same_config s1 s3.
Proof.
  unfold same_config. intros (?&?&?&?&?&?) (?&?&?&?&?&?).
  repeat split; congruence.
Qed.

Lemma extends_same_config s s' : extends s s' -> same_config s s'.
Proof. intros [t ->]. now repeat split. Qed.

Lemma quiet_same_config {A} (m : M A) :
  keeps extends m -> keeps same_config m.
Proof. intros Hm s. apply extends_same_config, Hm. Qed.

Lemma exit_same_config : keeps same_config exit.
Proof. intros s. rewrite exit_run. now repeat split. Qed.

Ltac same_config_chain n :=
  lazymatch n with
  | O => idtac
  | S ?n' =>
      apply (keeps_bind same_config same_config_trans);
      [|intros ?; same_config_chain n']
  end.

Lemma resume_same_config h : keeps same_config (resume h).
Proof.
  assert (Hmute : forall toggle,
            keeps extends (log h 1 "Unmute audio" [] ;; set_mute h toggle)).
  { intros. apply (keeps_bind extends extends_trans);
      [apply quiet_log | intros; apply quiet_set_mute]. }
  unfold resume.
  same_config_chain 8%nat;
    try apply exit_same_config;
    apply quiet_same_config;
    auto using quiet_get, quiet_when, quiet_dict_get, quiet_star, quiet_func,
      quiet_log_entry.
Qed.

(** ** Calls, as opposed to log lines *)

Lemma filter_calls function args kwargs :
  filter is_call (calls function args kwargs) = calls function args kwargs.
Proof.
  unfold calls. destruct function as [| | |name| |]; try reflexivity.
  destruct (name =? "log")%string; [reflexivity|].
  destruct (name =? "run_builtin")%string.
  { destruct args as [|[| | |b| |] [|]]; try reflexivity.
    destruct kwargs as [|[k [| | |b| |]] [|]]; try reflexivity.
    - destruct (k =? "builtin")%string; reflexivity.
    - destruct kwargs; reflexivity. }
  destruct (name =? "run_command")%string.
  { destruct (all_str args); reflexivity. }
  destruct (name =? "jsonrpc")%string; [|reflexivity].
  destruct args; reflexivity.
Qed.

Lemma marks_at_pure (P : event -> bool) {A B} (m : M A) (k : A -> M B) s a l :
  m = ret a -> marks_at P (k a) s l -> marks_at P (bind m k) s l.
Proof.
  intros ->. apply (marks_at_step P (ret a) k s a s); reflexivity.
Qed.

Lemma display_entry_shape d :
  In d DISPLAY_METHODS ->
  exists name title function args_off args_on,
    d = display_entry name title function args_off args_on.
Proof.
  unfold DISPLAY_METHODS. simpl.
  intros H. repeat (destruct H as [<- | H]; [do 5 eexists; reflexivity|]).
  contradiction.
Qed.

Lemma power_entry_shape p :
  In p POWER_METHODS ->
  exists name title function kwargs_off,
    p = power_entry name title function kwargs_off.
Proof.
  unfold POWER_METHODS. simpl.
  intros H. repeat (destruct H as [<- | H]; [do 4 eexists; reflexivity|]).
  contradiction.
Qed.

Lemma get_setting_stored h setting_id default :
  getSetting h setting_id <> "" ->
  get_setting h setting_id default = PyStr (getSetting h setting_id).
Proof.
  intros Hv. unfold get_setting, to_unicode.
  destruct (getSetting h setting_id =? "")%string eqn:E; [|reflexivity].
  apply String.eqb_eq in E. contradiction.
Qed.

Lemma get_setting_default h setting_id default :
  getSetting h setting_id = "" -> default <> PyNone ->
  get_setting h setting_id default = default.
Proof.
  intros Hv Hd. unfold get_setting, to_unicode. rewrite Hv.
  destruct default; try reflexivity. contradiction.
Qed.

(** ** The order of activation *)

Lemma is_call_log msg level : is_call (Xlog msg level) = false.
Proof. reflexivity. Qed.

Lemma is_call_notification heading msg icon delay :
  is_call (Notification heading msg icon delay) = false.
Proof. reflexivity. Qed.

Ltac pure_step v := apply (marks_at_pure _ _ _ _ v); [reflexivity|].
Ltac run_step := eapply marks_at_step; [reflexivity | reflexivity | cbv beta].

(** The calls of an activation once both methods are resolved and the
    dialog's attributes are set. *)
Lemma onInit_calls h s i j name title function args_off args_on
    name' title' function' kwargs_off :
  int h (get_setting h "display_method" (PyInt 0)) = Ret i ->
  getitem DISPLAY_METHODS i =
    Ret (display_entry name title function args_off args_on) ->
  int h (get_setting h "power_method" (PyInt 0)) = Ret j ->
  getitem POWER_METHODS j =
    Ret (power_entry name' title' function' kwargs_off) ->
  marks_at is_call (onInit h) s
    (calls (PyStr function) args_off [] ++
     (if eq_str (get_setting h "logoff" (PyStr "false")) "true"
      then [ExecuteJSONRPC logoff_request] else []) ++
     (if eq_str (get_setting h "mute" (PyStr "true")) "true"
      then [ExecuteJSONRPC (mute_request true)] else []) ++
     [MonitorCreated (Some BoundResume)] ++
     calls (PyStr function') [] kwargs_off).
Proof.
  intros Hi Hd Hj Hp.
  unfold onInit, set_logoff, set_mute_attr, set_display, set_power.
  do 2 run_step.
  rewrite Hi. run_step. rewrite Hd. do 2 run_step.
  rewrite Hj. run_step. rewrite Hp. do 2 run_step.
  run_step.
  cbn [self display logoff mute power with_self].
  pure_step (PyStr name). pure_step (PyStr name').
  apply marks_at_bind_nil; [apply marks_log, is_call_log | intros _ s1].
  apply marks_at_bind_nil;
    [apply marks_when_nil, marks_log_entry, is_call_log | intros _ s2].
  pure_step (PyStr function). pure_step (PyList args_off). pure_step args_off.
  rewrite <- (filter_calls (PyStr function) args_off []).
  apply marks_at_bind;
    [apply marks_func; [apply is_call_log | apply is_call_notification]
    | intros _ s3 _].
  apply marks_at_bind; [|intros _ s4 _].
  { apply marks_when, marks_bind_nil; [apply marks_log, is_call_log|].
    intros _. exact (marks_activate_window h is_call is_call_log "loginscreen"). }
  apply marks_at_bind; [|intros _ s5 _].
  { apply marks_when, marks_bind_nil; [apply marks_log, is_call_log|].
    intros _. exact (marks_set_mute h is_call is_call_log true). }
  apply marks_at_bind; [exact (marks_new_TurnOffMonitor is_call _ _) | intros m s6 _].
  run_step.
  apply marks_at_bind_nil;
    [apply marks_when_nil, marks_log_entry, is_call_log | intros _ s7].
  pure_step (PyStr function'). pure_step (PyDict kwargs_off). pure_step kwargs_off.
  rewrite <- (filter_calls (PyStr function') [] kwargs_off).
  rewrite <- (app_nil_r (filter _ _)).
  apply marks_at_bind;
    [apply marks_func; [apply is_call_log | apply is_call_notification]
    | intros; apply marks_ret].
Qed.

Lemma marks_at_explicit (P : event -> bool) {A} (m : M A) s l :
  marks_at P m s l ->
  exists t,
    trace (snd (m s)) = trace s ++ t /\
    (forall a, fst (m s) = Ret a -> filter P t = l) /\
    (exists rest, l = filter P t ++ rest).
Proof.
  intros (t & Ht & Hl). exists t. split; [assumption|].
  destruct (fst (m s)).
  - split; [intros; assumption | exists []; now rewrite app_nil_r].
  - split; [discriminate | assumption].
Qed.

(** ** Defaults *)

Lemma set_monitor_same_config v : keeps same_config (set_monitor v).
Proof. intros s. now repeat split. Qed.

(** Once both methods are resolved, the dialog's attributes hold what
    the settings said, whatever happens afterwards. *)
Lemma onInit_attributes h s i j d p :
  int h (get_setting h "display_method" (PyInt 0)) = Ret i ->
  getitem DISPLAY_METHODS i = Ret d ->
  int h (get_setting h "power_method" (PyInt 0)) = Ret j ->
  getitem POWER_METHODS j = Ret p ->
  display (self (snd (onInit h s))) = d /\
  logoff (self (snd (onInit h s))) = get_setting h "logoff" (PyStr "false") /\
  mute (self (snd (onInit h s))) = get_setting h "mute" (PyStr "true") /\
  power (self (snd (onInit h s))) = p.
Proof.
  intros Hi Hd Hj Hp.
  assert (Hon : forall m1 m2 : M unit,
            keeps extends m1 -> keeps extends m2 ->
            keeps extends (m1 ;; m2)).
  { intros. apply (keeps_bind extends extends_trans); auto. }
  unfold onInit, set_logoff, set_mute_attr, set_display, set_power.
  rewrite !bind_set_self, Hi, bind_lift_ret, Hd, bind_lift_ret, bind_set_self.
  rewrite Hj, bind_lift_ret, Hp, bind_lift_ret, bind_set_self, bind_get.
  match goal with
  | |- context [snd (?K ?s1)] =>
      assert (HK : keeps same_config K);
      [|destruct (HK s1) as (H1 & H2 & H3 & H4 & _)]
  end.
  { same_config_chain 17%nat;
      try apply set_monitor_same_config;
      apply quiet_same_config;
      auto using quiet_ret, quiet_when, quiet_dict_get, quiet_star,
        quiet_starstar, quiet_func, quiet_log_entry, quiet_log,
        quiet_new_TurnOffMonitor, quiet_activate_window, quiet_set_mute. }
  rewrite H1, H2, H3, H4. now repeat split.
Qed.

(** C10: [get_setting] answers with the default when the stored value is
    empty and a default is given, and with the stored value otherwise.
    With the four settings stored empty, an activation therefore runs
    with logoff 'false', mute 'true' and entry 0 of both catalogs: its
    calls are the display's do-nothing log, mute set to true, the monitor,
    and the power's do-nothing log, and no switch to the login screen. *)
Theorem activation_defaults h s :
  (forall setting_id default,
     (getSetting h setting_id = "" -> default <> PyNone ->
      get_setting h setting_id default = default) /\
     (getSetting h setting_id <> "" \/ default = PyNone ->
      get_setting h setting_id default = PyStr (getSetting h setting_id))) /\
  (getSetting h "logoff" = "" ->
   getSetting h "mute" = "" ->
   getSetting h "display_method" = "" ->
   getSetting h "power_method" = "" ->
   logoff (self (snd (onInit h s))) = PyStr "false" /\
   mute (self (snd (onInit h s))) = PyStr "true" /\
   nth_error DISPLAY_METHODS 0 = Some (display (self (snd (onInit h s)))) /\
   nth_error POWER_METHODS 0 = Some (power (self (snd (onInit h s)))) /\
   exists t,
     trace (snd (onInit h s)) = trace s ++ t /\
     (fst (onInit h s) = Ret tt ->
      filter is_call t =
        [Dispatch "log" [PyInt 2; PyStr "Do nothing to power off display"] [];
         ExecuteJSONRPC (mute_request true);
         MonitorCreated (Some BoundResume);
         Dispatch "log" []
           [("level", PyInt 2); ("msg", PyStr "Do nothing to power off system")]])).
Proof.
  split.
  - intros setting_id default. split.
    + apply get_setting_default.
    + intros [Hv | ->]; [now apply get_setting_stored|].
      unfold get_setting. now rewrite andb_false_r.
  - intros Hlogoff Hmute Hdisplay Hpower.
    assert (Hl : get_setting h "logoff" (PyStr "false") = PyStr "false")
      by (apply get_setting_default; [assumption | discriminate]).
    assert (Hm : get_setting h "mute" (PyStr "true") = PyStr "true")
      by (apply get_setting_default; [assumption | discriminate]).
    assert (Hi : int h (get_setting h "display_method" (PyInt 0)) = Ret 0)
      by (rewrite get_setting_default; [reflexivity | assumption | discriminate]).
    assert (Hj : int h (get_setting h "power_method" (PyInt 0)) = Ret 0)
      by (rewrite get_setting_default; [reflexivity | assumption | discriminate]).
    destruct (onInit_attributes h s 0 0 _ _ Hi eq_refl Hj eq_refl)
      as (H1 & H2 & H3 & H4).
    rewrite H1, H2, H3, H4, Hl, Hm. repeat (split; [reflexivity|]).
    pose proof (onInit_calls h s 0 0 _ _ _ _ _ _ _ _ _ Hi eq_refl Hj eq_refl) as H.
    rewrite Hl, Hm in H.
    destruct (marks_at_explicit _ _ _ _ H) as (t & Ht & Hret & _).
    exists t. split; [assumption|]. intros Hr. exact (Hret tt Hr).
Qed.

Lemma activation_defaults_witness :
  get_setting DemoDefaults.unconfigured "mute" (PyStr "true") = PyStr "true" /\
  logoff (self (snd (onInit DemoDefaults.unconfigured Demo.fresh))) = PyStr "false" /\
  mute (self (snd (onInit DemoDefaults.unconfigured Demo.fresh))) = PyStr "true" /\
  nth_error DISPLAY_METHODS 0 =
    Some (display (self (snd (onInit DemoDefaults.unconfigured Demo.fresh)))) /\
  nth_error POWER_METHODS 0 =
    Some (power (self (snd (onInit DemoDefaults.unconfigured Demo.fresh)))) /\
  fst (onInit DemoDefaults.unconfigured Demo.fresh) = Ret tt /\
  filter is_call (trace (snd (onInit DemoDefaults.unconfigured Demo.fresh))) =
    [Dispatch "log" [PyInt 2; PyStr "Do nothing to power off display"] [];
     ExecuteJSONRPC (mute_request true);
     MonitorCreated (Some BoundResume);
     Dispatch "log" []
       [("level", PyInt 2); ("msg", PyStr "Do nothing to power off system")]].
Proof.
  destruct (activation_defaults DemoDefaults.unconfigured Demo.fresh)
    as (Hget & Hinit).
  split.
  { apply (proj1 (Hget "mute" (PyStr "true"))); [reflexivity | discriminate]. }
  destruct (Hinit eq_refl eq_refl eq_refl eq_refl)
    as (H1 & H2 & H3 & H4 & t & Ht & Hcalls).
  repeat (split; [assumption|]).
  split; [reflexivity|].
  rewrite Ht. exact (Hcalls eq_refl).
Defined.

(** ** Resuming *)

(** The calls of [resume]: unmute when mute is set, then the display
    method's function on its [args_on]; closing the dialog is all that is
    left after that. *)
Lemma resume_calls h s name title function args_off args_on :
  display (self s) = display_entry name title function args_off args_on ->
  marks_at is_call (resume h) s
    ((if eq_str (mute (self s)) "true"
      then [ExecuteJSONRPC (mute_request false)] else []) ++
     calls (PyStr function) args_on []).
Proof.
  intros Hd. unfold resume. run_step. rewrite Hd.
  apply marks_at_bind; [|intros _ s1 _].
  { apply marks_when, marks_bind_nil; [apply marks_log, is_call_log|].
    intros _. exact (marks_set_mute h is_call is_call_log false). }
  pure_step (PyStr name).
  apply marks_at_bind_nil;
    [apply marks_when_nil, marks_log_entry, is_call_log | intros _ s2].
  pure_step (PyStr function). pure_step (PyList args_on). pure_step args_on.
  rewrite <- (filter_calls (PyStr function) args_on []).
  rewrite <- (app_nil_r (filter _ _)).
  apply marks_at_bind;
    [apply marks_func; [apply is_call_log | apply is_call_notification]
    | intros _ s3 _].
  exact (marks_exit is_call s3).
Qed.

(** C7 as stated fails twice over.  With the do-nothing display method
    selected, [resume] still runs that method's on-action, the log
    function on its [args_on]; and on a host that was already muted
    before the screensaver came up, activation followed by [resume]
    leaves it unmuted. *)
Lemma resume_is_not_a_round_trip :
  (display (self DemoResume.active) =
     display_entry "do-nothing" "Do nothing" "log"
       [PyInt 2; PyStr "Do nothing to power off display"]
       [PyInt 2; PyStr "Do nothing to power back on display"] /\
   trace (snd (resume DemoResume.logging DemoResume.active)) =
     trace DemoResume.active ++
     [Xlog "[screensaver.turnoff] Unmute audio" 2;
      ExecuteJSONRPC (mute_request false);
      Dispatch "log" [PyInt 2; PyStr "Do nothing to power back on display"] [];
      Xlog "[screensaver.turnoff] Do nothing to power back on display" 2;
      Close]) /\
  (mute_after true [] = true /\
   mute_after true
     (trace (snd (resume DemoResume.logging DemoResume.active))) = false).
Proof.
  repeat split; reflexivity.
Qed.

(** ** The monitor *)

(** C2 as stated fails: on an active session (CEC display method, mute
    on), firing the deactivation event twice runs the resume sequence
    twice.  The calls made since activation show the unmute request and
    the display's on-action two times each. *)
Lemma deactivation_fired_twice_resumes_twice :
  monitor (self DemoResume.watching) = Holds (Some DemoResume.the_monitor) /\
  fst (onScreensaverDeactivated DemoResume.cec DemoResume.the_monitor
         DemoResume.watching) = Ret tt /\
  fst (onScreensaverDeactivated DemoResume.cec DemoResume.the_monitor
         (snd (onScreensaverDeactivated DemoResume.cec DemoResume.the_monitor
                 DemoResume.watching))) = Ret tt /\
  trace (snd (onScreensaverDeactivated DemoResume.cec DemoResume.the_monitor
                (snd (onScreensaverDeactivated DemoResume.cec
                        DemoResume.the_monitor DemoResume.watching)))) =
    trace DemoResume.watching ++
    [ExecuteJSONRPC (mute_request false);
     Dispatch "run_builtin" [PyStr "CECActivateSource"] [];
     ExecuteBuiltin "CECActivateSource" true;
     Close;
     ExecuteJSONRPC (mute_request false);
     Dispatch "run_builtin" [PyStr "CECActivateSource"] [];
     ExecuteBuiltin "CECActivateSource" true;
     Close].
Proof.
  repeat split; reflexivity.
Qed.

Lemma exit_is_repeatable_witness :
  fst (resume DemoResume.cec DemoResume.watching) = Ret tt /\
  monitor (self (snd (resume DemoResume.cec DemoResume.watching))) = Deleted /\
  exit (snd (resume DemoResume.cec DemoResume.watching)) =
    (Ret tt, add_events (snd (resume DemoResume.cec DemoResume.watching)) [Close]).
Proof.
  split; [reflexivity|].
  apply (proj2 (proj2 (proj2 (proj2 (proj2
           (exit_is_repeatable DemoResume.cec DemoResume.watching)))))).
  reflexivity.
Defined.

(** ** The do-nothing entries *)














(** * Further properties of the code *)

(** ** Logging *)

Lemma log_unreadable h level msg kwargs s e :
  int h (get_setting h "max_log_level" (PyInt 0)) = Raise e ->
  log h level msg kwargs s = (Raise e, s).
Proof. intros H. unfold log, bind, lift. now rewrite H. Qed.

(** X1: with the host's debug logging on, [log] writes every line, at
    level [level mod 3]; with it off, [log] writes a line exactly when
    [max_log_level] is not 0 and the line's level does not exceed it,
    always at level 2, and is silent otherwise.  The line is the add-on
    id in brackets followed by the message.  When [max_log_level] cannot
    be read as an integer [log] raises without writing, debug logging or
    not. *)
Theorem log_gating h level msg kwargs s :
  (forall max_log_level,
     int h (get_setting h "max_log_level" (PyInt 0)) = Ret max_log_level ->
     (truthy (DEBUG_LOGGING s) = true ->
      log h level msg kwargs s =
        (Ret tt,
         add_events s
           [Xlog ("[" ++ ADDON_ID h ++ "] " ++
                  (if truthy (PyDict kwargs) then vformat h msg kwargs else msg))
              (level mod 3)]) /\
      0 <= level mod 3 <= 2) /\
     (truthy (DEBUG_LOGGING s) = false ->
      level <= max_log_level -> max_log_level <> 0 ->
      log h level msg kwargs s =
        (Ret tt,
         add_events s
           [Xlog ("[" ++ ADDON_ID h ++ "] " ++
                  (if truthy (PyDict kwargs) then vformat h msg kwargs else msg))
              2])) /\
     (truthy (DEBUG_LOGGING s) = false ->
      max_log_level < level \/ max_log_level = 0 ->
      log h level msg kwargs s = (Ret tt, s))) /\
  (forall e,
     int h (get_setting h "max_log_level" (PyInt 0)) = Raise e ->
     log h level msg kwargs s = (Raise e, s)).
Proof.
  split; [|intros e; apply log_unreadable].
  intros max_log_level Hint. unfold log, bind, lift, get, xlog, emit, ret.
  rewrite Hint. split; [|split].
  - intros Hd. rewrite Hd. split; [reflexivity|].
    pose proof (Z.mod_pos_bound level 3). lia.
  - intros Hd Hle Hnz. rewrite Hd.
    replace (level <=? max_log_level) with true
      by (symmetry; apply Z.leb_le; assumption).
    replace (max_log_level =? 0) with false
      by (symmetry; apply Z.eqb_neq; assumption).
    reflexivity.
  - intros Hd Hsilent. rewrite Hd.
    destruct Hsilent as [Hlt | ->].
    + replace (level <=? max_log_level) with false
        by (symmetry; apply Z.leb_gt; assumption).
      reflexivity.
    + now rewrite andb_false_r.
Qed.

Lemma log_gating_witness :
  log DemoExtra.verbose 1 "Mute audio" [] DemoExtra.debugging =
    (Ret tt,
     add_events DemoExtra.debugging [Xlog "[screensaver.turnoff] Mute audio" 1]) /\
  log DemoExtra.verbose 3 "Mute audio" [] Demo.fresh =
    (Ret tt, add_events Demo.fresh [Xlog "[screensaver.turnoff] Mute audio" 2]) /\
  log DemoResume.logging 3 "Mute audio" [] Demo.fresh = (Ret tt, Demo.fresh) /\
  log DemoDefaults.unconfigured 1 "Mute audio" [] Demo.fresh = (Ret tt, Demo.fresh) /\
  log DemoExtra.unreadable_level 1 "Mute audio" [] DemoExtra.debugging =
    (Raise ValueError, DemoExtra.debugging).
Proof.
  split; [|split; [|split; [|split]]].
  - apply (proj1 (log_gating DemoExtra.verbose 1 "Mute audio" []
                    DemoExtra.debugging) 3 eq_refl).
    reflexivity.
  - apply (proj1 (log_gating DemoExtra.verbose 3 "Mute audio" []
                    Demo.fresh) 3 eq_refl);
      [reflexivity | lia | lia].
  - apply (proj1 (log_gating DemoResume.logging 3 "Mute audio" []
                    Demo.fresh) 2 eq_refl);
      [reflexivity | left; lia].
  - apply (proj1 (log_gating DemoDefaults.unconfigured 1 "Mute audio" []
                    Demo.fresh) 0 eq_refl);
      [reflexivity | right; reflexivity].
  - apply (proj2 (log_gating DemoExtra.unreadable_level 1 "Mute audio" []
                    DemoExtra.debugging) ValueError).
    reflexivity.
Defined.

(** ** The request envelope *)







(** ** Replies that do not parse *)

(** X3: when the host's reply does not parse, [jsonrpc] raises
    ValueError after the request went out: the request is in the trace,
    nothing is logged, and whatever the request asked for has been asked.
    [set_mute] and [activate_window] fail the same way. *)
Theorem jsonrpc_unparsable_reply h kwargs s :
  loads h (executeJSONRPC h (trace s) (dumps h (envelope kwargs))) = None ->
  jsonrpc h kwargs s =
    (Raise ValueError, add_events s [ExecuteJSONRPC (envelope kwargs)]) /\
  (forall toggle,
     kwargs = [("method", PyStr "Application.SetMute");
               ("params", PyDict [("mute", PyBool toggle)])] ->
     set_mute h toggle s =
       (Raise ValueError, add_events s [ExecuteJSONRPC (mute_request toggle)])) /\
  (kwargs = [("method", PyStr "GUI.ActivateWindow");
             ("params", PyDict [("window", PyStr "loginscreen")])] ->
   activate_window h "loginscreen" s =
     (Raise ValueError, add_events s [ExecuteJSONRPC logoff_request])).
Proof.
  intros Hreply.
  assert (Hrun : jsonrpc h kwargs s =
            (Raise ValueError, add_events s [ExecuteJSONRPC (envelope kwargs)])).
  { unfold jsonrpc. fold (envelope kwargs).
    unfold bind at 1. unfold get at 1. unfold bind at 1. unfold emit at 1.
    now rewrite Hreply. }
  split; [exact Hrun|]. split.
  - intros toggle ->. unfold set_mute, bind. now rewrite Hrun.
  - intros ->. unfold activate_window, bind. now rewrite Hrun.
Qed.

Lemma jsonrpc_unparsable_reply_witness :
  set_mute DemoExtra.garbled true Demo.fresh =
    (Raise ValueError,
     add_events Demo.fresh [ExecuteJSONRPC (mute_request true)]).
Proof.
  apply (proj1 (proj2 (jsonrpc_unparsable_reply DemoExtra.garbled
           [("method", PyStr "Application.SetMute");
            ("params", PyDict [("mute", PyBool true)])]
           Demo.fresh eq_refl)) true eq_refl).
Defined.

(** ** Module load *)

Lemma log_silent h level msg kwargs s max_log_level :
  int h (get_setting h "max_log_level" (PyInt 0)) = Ret max_log_level ->
  truthy (DEBUG_LOGGING s) = false ->
  max_log_level < level ->
  log h level msg kwargs s = (Ret tt, s).
Proof.
  intros Hint Hd Hlt. unfold log, bind, lift, get, ret. rewrite Hint, Hd.
  replace (level <=? max_log_level) with false
    by (symmetry; apply Z.leb_gt; assumption).
  reflexivity.
Qed.

Lemma add_events_nil_inv s t : add_events s t = s -> t = [].
Proof.
  intros H. apply (f_equal trace) in H. simpl in H.
  rewrite <- (app_nil_r (trace s)) in H at 2.
  now apply app_inv_head in H.
Qed.

Lemma jsonrpc_run h kwargs s reply max_log_level :
  loads h (executeJSONRPC h (trace s) (dumps h (envelope kwargs))) = Some reply ->
  int h (get_setting h "max_log_level" (PyInt 0)) = Ret max_log_level ->
  exists t,
    jsonrpc h kwargs s =
      (Ret reply, add_events s (ExecuteJSONRPC (envelope kwargs) :: t)) /\
    forallb is_xlog t = true /\
    (truthy (DEBUG_LOGGING s) = false -> max_log_level < 3 -> t = []).
Proof.
  intros Hreply Hint. unfold jsonrpc. fold (envelope kwargs).
  unfold bind at 1. unfold get at 1. unfold bind at 1. unfold emit at 1.
  rewrite Hreply.
  destruct (log_run h 3 "Sending JSON-RPC payload: '{payload}' returns '{result}'"
              [("payload", PyDict (envelope kwargs)); ("result", reply)]
              (add_events s [ExecuteJSONRPC (envelope kwargs)]) _ Hint)
    as (t & Ht & Hlog).
  exists t. split; [|split; [assumption|]].
  - unfold bind. rewrite Ht. unfold ret. now rewrite add_events_app.
  - intros Hd Hlt.
    rewrite (log_silent h 3 _ _ (add_events s [ExecuteJSONRPC (envelope kwargs)])
               _ Hint Hd Hlt) in Ht.
    apply (f_equal snd) in Ht. cbv [snd] in Ht. symmetry in Ht.
    now apply add_events_nil_inv in Ht.
Qed.

Lemma jsonrpc_unreadable h kwargs s :
  loads h (executeJSONRPC h (trace s) (dumps h (envelope kwargs))) = None ->
  jsonrpc h kwargs s =
    (Raise ValueError, add_events s [ExecuteJSONRPC (envelope kwargs)]).
Proof.
  intros Hreply. unfold jsonrpc. fold (envelope kwargs).
  unfold bind at 1. unfold get at 1. unfold bind at 1. unfold emit at 1.
  now rewrite Hreply.
Qed.

Lemma module_init_run h s :
  module_init h s =
    match jsonrpc h [("method", PyStr "Settings.GetSettingValue");
                     ("params", PyDict [("setting", PyStr "debug.showloginfo")])]
            (with_debug s (PyInt 0)) with
    | (Ret result, s1) =>
        match dict_get result "result" (PyDict []) s1 with
        | (Ret r, s2) =>
            match dict_get r "value" PyNone s2 with
            | (Ret v, s3) => (Ret tt, with_debug s3 v)
            | (Raise e, s3) => (Raise e, s3)
            end
        | (Raise e, s2) => (Raise e, s2)
        end
    | (Raise e, s1) => (Raise e, s1)
    end.
Proof.
  unfold module_init, get_global_setting, bind.
  destruct (jsonrpc h _ _) as [[result | e] s1]; [|reflexivity].
  destruct (dict_get result _ _ s1) as [[r | e] s2]; [|reflexivity].
  destruct (dict_get r _ _ s2) as [[v | e] s3]; reflexivity.
Qed.

(** X4: loading the module asks the host once, for debug.showloginfo, and
    leaves that setting's value in [DEBUG_LOGGING] (None when the reply's
    result carries no value).  While the question is out [DEBUG_LOGGING]
    is 0, so the request is only logged when [max_log_level] is 3 or
    more.  When the reply does not parse the load ends in ValueError with
    [DEBUG_LOGGING] left at 0. *)
Theorem module_init_reads_debug_flag h s :
  (forall fields result max_log_level,
     loads h (executeJSONRPC h (trace s)
                (dumps h [("method", PyStr "Settings.GetSettingValue");
                          ("params", PyDict [("setting", PyStr "debug.showloginfo")]);
                          ("id", PyInt 1); ("jsonrpc", PyStr "2.0")])) =
       Some (PyDict fields) ->
     Dict.lookup fields "result" = Some (PyDict result) ->
     int h (get_setting h "max_log_level" (PyInt 0)) = Ret max_log_level ->
     fst (module_init h s) = Ret tt /\
     DEBUG_LOGGING (snd (module_init h s)) =
       or_default (Dict.lookup result "value") PyNone /\
     self (snd (module_init h s)) = self s /\
     exists t,
       trace (snd (module_init h s)) =
         trace s ++
         ExecuteJSONRPC [("method", PyStr "Settings.GetSettingValue");
                         ("params", PyDict [("setting", PyStr "debug.showloginfo")]);
                         ("id", PyInt 1); ("jsonrpc", PyStr "2.0")] :: t /\
       forallb is_xlog t = true /\
       (max_log_level < 3 -> t = [])) /\
  (loads h (executeJSONRPC h (trace s)
              (dumps h [("method", PyStr "Settings.GetSettingValue");
                        ("params", PyDict [("setting", PyStr "debug.showloginfo")]);
                        ("id", PyInt 1); ("jsonrpc", PyStr "2.0")])) = None ->
   fst (module_init h s) = Raise ValueError /\
   DEBUG_LOGGING (snd (module_init h s)) = PyInt 0).
Proof.
  split.
  - intros fields result lvl Hreply Hresult Hint.
    destruct (jsonrpc_run h
                [("method", PyStr "Settings.GetSettingValue");
                 ("params", PyDict [("setting", PyStr "debug.showloginfo")])]
                (with_debug s (PyInt 0)) (PyDict fields) lvl Hreply Hint)
      as (t & Ht & Hlog & Hquiet).
    rewrite module_init_run, Ht.
    cbv [dict_get ret]. rewrite Hresult. cbv [fst snd or_default].
    split; [reflexivity|]. split; [reflexivity|]. split; [reflexivity|].
    exists t. split; [reflexivity|]. split; [assumption|].
    intros Hlt. apply Hquiet; [reflexivity | assumption].
  - intros Hreply. rewrite module_init_run.
    rewrite (jsonrpc_unreadable h
               [("method", PyStr "Settings.GetSettingValue");
                ("params", PyDict [("setting", PyStr "debug.showloginfo")])]
               (with_debug s (PyInt 0)) Hreply).
    now split.
Qed.

Lemma module_init_reads_debug_flag_witness :
  (fst (module_init (DemoRemote.answering DemoRemote.setting_reply)
          DemoExtra.blank) = Ret tt /\
   DEBUG_LOGGING (snd (module_init (DemoRemote.answering DemoRemote.setting_reply)
                         DemoExtra.blank)) = PyBool true /\
   trace (snd (module_init (DemoRemote.answering DemoRemote.setting_reply)
                 DemoExtra.blank)) =
     [ExecuteJSONRPC [("method", PyStr "Settings.GetSettingValue");
                      ("params", PyDict [("setting", PyStr "debug.showloginfo")]);
                      ("id", PyInt 1); ("jsonrpc", PyStr "2.0")]]) /\
  (fst (module_init DemoExtra.garbled DemoExtra.blank) = Raise ValueError /\
   DEBUG_LOGGING (snd (module_init DemoExtra.garbled DemoExtra.blank)) = PyInt 0).
Proof.
  split.
  - destruct (proj1 (module_init_reads_debug_flag
                       (DemoRemote.answering DemoRemote.setting_reply)
                       DemoExtra.blank)
                [("id", PyInt 1); ("jsonrpc", PyStr "2.0");
                 ("result", PyDict [("value", PyBool true)])]
                [("value", PyBool true)] 0 eq_refl eq_refl eq_refl)
      as (Hret & Hdebug & _ & t & Ht & _ & Hquiet).
    split; [exact Hret|]. split; [exact Hdebug|].
    rewrite Ht. rewrite Hquiet by lia. reflexivity.
  - apply (proj2 (module_init_reads_debug_flag DemoExtra.garbled DemoExtra.blank)).
    reflexivity.
Defined.

(** ** Built-ins and commands *)

Lemma forallb_xlog_report t : forallb is_xlog t = true -> forallb is_report t = true.
Proof.
  induction t as [|e t IH]; [reflexivity|]. simpl.
  intros H. apply andb_true_iff in H as [He Ht].
  unfold is_report at 1. rewrite He. simpl. auto.
Qed.

(** X5: [run_builtin] runs the built-in waiting for it to complete, once,
    as the last thing it does, after at most a log line; when
    [max_log_level] cannot be read it raises before the built-in is
    run. *)
Theorem run_builtin_waits h builtin s :
  (forall max_log_level,
     int h (get_setting h "max_log_level" (PyInt 0)) = Ret max_log_level ->
     exists t,
       run_builtin h builtin s =
         (Ret tt, add_events s (t ++ [ExecuteBuiltin builtin true])) /\
       forallb is_xlog t = true) /\
  (forall e,
     int h (get_setting h "max_log_level" (PyInt 0)) = Raise e ->
     run_builtin h builtin s = (Raise e, s)).
Proof.
  split.
  - intros lvl Hint. unfold run_builtin.
    destruct (log_run h 2 "Executing builtin '{builtin}'"
                [("builtin", PyStr builtin)] s lvl Hint) as (t & Ht & Hlog).
    exists t. split; [|assumption].
    unfold bind. rewrite Ht. unfold emit. now rewrite add_events_app.
  - intros e Hint. unfold run_builtin, bind.
    now rewrite (log_unreadable h _ _ _ s e Hint).
Qed.

Lemma run_builtin_waits_witness :
  (exists t,
     run_builtin DemoExtra.verbose "CECStandby" Demo.fresh =
       (Ret tt, add_events Demo.fresh (t ++ [ExecuteBuiltin "CECStandby" true])) /\
     forallb is_xlog t = true) /\
  run_builtin DemoExtra.unreadable_level "CECStandby" Demo.fresh =
    (Raise ValueError, Demo.fresh).
Proof.
  split.
  - apply (proj1 (run_builtin_waits DemoExtra.verbose "CECStandby" Demo.fresh) 3).
    reflexivity.
  - apply (proj2 (run_builtin_waits DemoExtra.unreadable_level "CECStandby"
                    Demo.fresh) ValueError).
    reflexivity.
Defined.

Lemma run_command_succeeds h command kwargs s out max_log_level :
  int h (get_setting h "max_log_level" (PyInt 0)) = Ret max_log_level ->
  communicate h (trace s) command kwargs = Completed out 0 ->
  exists t,
    run_command h command kwargs s =
      (Ret tt, add_events s (Popen command kwargs :: t)) /\
    forallb is_xlog t = true.
Proof.
  intros Hint Hrun. unfold run_command.
  unfold bind at 1. unfold get at 1. unfold bind at 1. unfold emit at 1.
  rewrite Hrun. change (0 =? 0) with true. cbv iota.
  destruct (log_run h 2 "Running command '{command}' returned rc={rc}"
              [("command", PyStr (join command)); ("rc", PyInt 0)]
              (add_events s [Popen command kwargs]) _ Hint) as (t & Ht & Hlog).
  exists t. split; [|assumption]. rewrite Ht. now rewrite add_events_app.
Qed.

Lemma run_command_fails h c0 rest kwargs s :
  (forall out rc,
     communicate h (trace s) (c0 :: rest) kwargs = Completed out rc ->
     rc <> 0 ->
     exists t,
       run_command h (c0 :: rest) kwargs s =
         (Raise (SystemExit 1),
          add_events s (Popen (c0 :: rest) kwargs :: t)) /\
       forallb is_report t = true) /\
  (forall exc,
     communicate h (trace s) (c0 :: rest) kwargs = Failed exc ->
     exists t,
       run_command h (c0 :: rest) kwargs s =
         (Raise (SystemExit 2),
          add_events s (Popen (c0 :: rest) kwargs :: t)) /\
       forallb is_report t = true).
Proof.
  split.
  - intros out rc Hrun Hrc.
    unfold run_command. unfold bind at 1. unfold get at 1.
    unfold bind at 1. unfold emit at 1. rewrite Hrun.
    apply Z.eqb_neq in Hrc. rewrite Hrc.
    unfold bind at 1. unfold log_error at 1, xlog, emit.
    cbn [truthy from_unicode]. rewrite add_events_app.
    unfold bind at 1.
    destruct (out =? "")%string eqn:Hout; cbn [negb when].
    + unfold ret at 1. unfold bind, popup, emit, raise. cbn [truthy negb].
      rewrite String.eqb_refl. cbn [negb]. rewrite add_events_app.
      eexists. split; [reflexivity | reflexivity].
    + unfold bind at 1. rewrite first_cons.
      unfold log_error, xlog, emit. cbn [truthy from_unicode].
      rewrite add_events_app.
      unfold bind, popup, emit, raise. cbn [truthy negb].
      rewrite String.eqb_refl. cbn [negb]. rewrite add_events_app.
      eexists. split; [reflexivity | reflexivity].
  - intros exc Hrun.
    unfold run_command. unfold bind at 1. unfold get at 1.
    unfold bind at 1. unfold emit at 1. rewrite Hrun.
    unfold bind at 1. rewrite first_cons.
    unfold bind at 1. unfold log_error at 1, xlog, emit.
    cbn [truthy from_unicode]. rewrite add_events_app.
    unfold bind at 1. rewrite first_cons.
    unfold bind, popup, emit, raise. cbn [truthy negb].
    rewrite String.eqb_refl. cbn [negb]. rewrite add_events_app.
    eexists. split; [reflexivity | reflexivity].
Qed.

(** X6: [run_command] starts the command exactly once, first thing, and
    what follows in the trace is log lines and at most a notification.
    With a readable [max_log_level] it returns normally if and only if
    the command ran and ended with return code 0, and then it has shown
    no notification. *)
Theorem run_command_returns_iff_zero h c0 rest kwargs s max_log_level :
  int h (get_setting h "max_log_level" (PyInt 0)) = Ret max_log_level ->
  exists t,
    snd (run_command h (c0 :: rest) kwargs s) =
      add_events s (Popen (c0 :: rest) kwargs :: t) /\
    forallb is_report t = true /\
    (fst (run_command h (c0 :: rest) kwargs s) = Ret tt <->
     exists out,
       communicate h (trace s) (c0 :: rest) kwargs = Completed out 0) /\
    (fst (run_command h (c0 :: rest) kwargs s) = Ret tt ->
     forallb is_xlog t = true).
Proof.
  intros Hint.
  destruct (communicate h (trace s) (c0 :: rest) kwargs) as [out rc | exc] eqn:Hrun.
  - destruct (Z.eq_dec rc 0) as [-> | Hrc].
    + destruct (run_command_succeeds h _ _ s out _ Hint Hrun) as (t & Ht & Hlog).
      exists t. rewrite Ht. split; [reflexivity|].
      split; [now apply forallb_xlog_report|].
      split; [|intros; assumption].
      split; [intros _; now exists out | reflexivity].
    + destruct (proj1 (run_command_fails h c0 rest kwargs s) out rc Hrun Hrc)
        as (t & Ht & Hrep).
      exists t. rewrite Ht. split; [reflexivity|]. split; [assumption|].
      split; [|discriminate].
      split; [discriminate|]. intros (out' & [= _ Hz]). contradiction.
  - destruct (proj2 (run_command_fails h c0 rest kwargs s) exc Hrun)
      as (t & Ht & Hrep).
    exists t. rewrite Ht. split; [reflexivity|]. split; [assumption|].
    split; [|discriminate].
    split; [discriminate|]. intros (out' & [=]).
Qed.

Lemma run_command_returns_iff_zero_witness :
  fst (run_command DemoExtra.verbose ["xset"; "dpms"; "force"; "off"] []
         Demo.fresh) = Ret tt /\
  fst (run_command DemoExtra.broken_xset ["xset"; "dpms"; "force"; "off"] []
         Demo.fresh) <> Ret tt.
Proof.
  destruct (run_command_returns_iff_zero DemoExtra.verbose "xset"
              ["dpms"; "force"; "off"] [] Demo.fresh 3 eq_refl)
    as (t & _ & _ & Hiff & _).
  destruct (run_command_returns_iff_zero DemoExtra.broken_xset "xset"
              ["dpms"; "force"; "off"] [] Demo.fresh 0 eq_refl)
    as (t' & _ & _ & Hiff' & _).
  split.
  - apply Hiff. exists "". reflexivity.
  - intros H. apply Hiff' in H. destruct H as (out & H). discriminate H.
Defined.

(** ** Activation with settings that cannot be read *)

Lemma bind_ret_run {A B} (a : A) (k : A -> M B) s : bind (ret a) k s = k a s.
Proof. reflexivity. Qed.

Lemma bind_raises {A B} (m : M A) (k : A -> M B) s e s' :
  m s = (Raise e, s') -> bind m k s = (Raise e, s').
Proof. intros H. unfold bind. now rewrite H. Qed.

Lemma bind_runs {A B} (m : M A) (k : A -> M B) s a s' :
  m s = (Ret a, s') -> bind m k s = k a s'.
Proof. intros H. unfold bind. now rewrite H. Qed.

(** X7: a method index or a log level stored as something [int] cannot
    read stops the activation with that error before any action: nothing
    is appended to the trace and no monitor is created.  The log level is
    only read once both methods are resolved, at the first log line. *)
Theorem onInit_unreadable_setting h s :
  (forall e,
     int h (get_setting h "display_method" (PyInt 0)) = Raise e ->
     fst (onInit h s) = Raise e /\
     trace (snd (onInit h s)) = trace s /\
     monitor (self (snd (onInit h s))) = monitor (self s)) /\
  (forall i d e,
     int h (get_setting h "display_method" (PyInt 0)) = Ret i ->
     getitem DISPLAY_METHODS i = Ret d ->
     int h (get_setting h "power_method" (PyInt 0)) = Raise e ->
     fst (onInit h s) = Raise e /\
     trace (snd (onInit h s)) = trace s /\
     monitor (self (snd (onInit h s))) = monitor (self s)) /\
  (forall i j d p e,
     int h (get_setting h "display_method" (PyInt 0)) = Ret i ->
     getitem DISPLAY_METHODS i = Ret d ->
     int h (get_setting h "power_method" (PyInt 0)) = Ret j ->
     getitem POWER_METHODS j = Ret p ->
     int h (get_setting h "max_log_level" (PyInt 0)) = Raise e ->
     fst (onInit h s) = Raise e /\
     trace (snd (onInit h s)) = trace s /\
     monitor (self (snd (onInit h s))) = monitor (self s)).
Proof.
  split; [|split].
  - intros e Hi.
    unfold onInit, set_logoff, set_mute_attr.
    rewrite !bind_set_self, Hi, bind_lift_raise. now repeat split.
  - intros i d e Hi Hd Hj.
    unfold onInit, set_logoff, set_mute_attr, set_display.
    rewrite !bind_set_self, Hi, bind_lift_ret, Hd, bind_lift_ret, bind_set_self.
    rewrite Hj, bind_lift_raise. now repeat split.
  - intros i j d p e Hi Hd Hj Hp Hlevel.
    destruct (display_entry_shape d (getitem_in _ _ _ Hd))
      as (n & t & f & aoff & aon & ->).
    destruct (power_entry_shape p (getitem_in _ _ _ Hp))
      as (n' & t' & f' & k' & ->).
    unfold onInit, set_logoff, set_mute_attr, set_display, set_power.
    rewrite !bind_set_self, Hi, bind_lift_ret, Hd, bind_lift_ret, bind_set_self.
    rewrite Hj, bind_lift_ret, Hp, bind_lift_ret, bind_set_self, bind_get.
    cbn [self display power with_self].
    change (dict_get (display_entry n t f aoff aon) "name" PyNone)
      with (@ret pyval (PyStr n)).
    rewrite bind_ret_run.
    change (dict_get (power_entry n' t' f' k') "name" PyNone)
      with (@ret pyval (PyStr n')).
    rewrite bind_ret_run.
    erewrite bind_raises by (apply log_unreadable; exact Hlevel).
    now repeat split.
Qed.

Lemma onInit_unreadable_setting_witness :
  (fst (onInit DemoExtra.unreadable_index Demo.fresh) = Raise ValueError /\
   trace (snd (onInit DemoExtra.unreadable_index Demo.fresh)) = [] /\
   monitor (self (snd (onInit DemoExtra.unreadable_index Demo.fresh))) =
     Holds None) /\
  (fst (onInit DemoExtra.unreadable_level Demo.fresh) = Raise ValueError /\
   trace (snd (onInit DemoExtra.unreadable_level Demo.fresh)) = [] /\
   monitor (self (snd (onInit DemoExtra.unreadable_level Demo.fresh))) =
     Holds None).
Proof.
  split.
  - apply (proj1 (onInit_unreadable_setting DemoExtra.unreadable_index Demo.fresh)
             ValueError).
    reflexivity.
  - apply (proj2 (proj2 (onInit_unreadable_setting DemoExtra.unreadable_level
                           Demo.fresh))
             0 0 display_do_nothing power_do_nothing ValueError);
      reflexivity.
Defined.

(** ** Activation in general *)

Lemma logoff_gate h :
  eq_str (get_setting h "logoff" (PyStr "false")) "true" =
    (getSetting h "logoff" =? "true")%string.
Proof.
  unfold get_setting, to_unicode.
  destruct (getSetting h "logoff" =? "")%string eqn:E; [|reflexivity].
  apply String.eqb_eq in E. now rewrite E.
Qed.

Lemma mute_gate h :
  eq_str (get_setting h "mute" (PyStr "true")) "true" =
    ((getSetting h "mute" =? "")%string || (getSetting h "mute" =? "true")%string).
Proof.
  unfold get_setting, to_unicode.
  destruct (getSetting h "mute" =? "")%string eqn:E; reflexivity.
Qed.

(** X8: whatever the settings say, once both methods are resolved the
    calls of an activation that runs to its end are the display's
    off-action, the switch to the login screen exactly when logoff is
    stored as the word true, mute set to true exactly when mute is stored
    as the word true or not stored at all, the monitor, and the power's
    off-action, in this order; a run that is cut short has made the first
    few of them. *)
Theorem onInit_calls_in_general h s i j name title function args_off args_on
    name' title' function' kwargs_off :
  int h (get_setting h "display_method" (PyInt 0)) = Ret i ->
  getitem DISPLAY_METHODS i =
    Ret (display_entry name title function args_off args_on) ->
  int h (get_setting h "power_method" (PyInt 0)) = Ret j ->
  getitem POWER_METHODS j =
    Ret (power_entry name' title' function' kwargs_off) ->
  exists t,
    trace (snd (onInit h s)) = trace s ++ t /\
    (fst (onInit h s) = Ret tt ->
     filter is_call t =
       calls (PyStr function) args_off [] ++
       (if (getSetting h "logoff" =? "true")%string
        then [ExecuteJSONRPC logoff_request] else []) ++
       (if (getSetting h "mute" =? "")%string ||
           (getSetting h "mute" =? "true")%string
        then [ExecuteJSONRPC (mute_request true)] else []) ++
       [MonitorCreated (Some BoundResume)] ++
       calls (PyStr function') [] kwargs_off) /\
    (exists rest,
       calls (PyStr function) args_off [] ++
       (if (getSetting h "logoff" =? "true")%string
        then [ExecuteJSONRPC logoff_request] else []) ++
       (if (getSetting h "mute" =? "")%string ||
           (getSetting h "mute" =? "true")%string
        then [ExecuteJSONRPC (mute_request true)] else []) ++
       [MonitorCreated (Some BoundResume)] ++
       calls (PyStr function') [] kwargs_off = filter is_call t ++ rest).
Proof.
  intros Hi Hd Hj Hp.
  pose proof (onInit_calls h s _ _ _ _ _ _ _ _ _ _ _ Hi Hd Hj Hp) as H.
  rewrite logoff_gate, mute_gate in H.
  destruct (marks_at_explicit _ _ _ _ H) as (t & Ht & Hret & Hpre).
  exists t. split; [assumption|]. split; [|exact Hpre].
  intros Hr. exact (Hret tt Hr).
Qed.

Lemma onInit_calls_in_general_witness :
  fst (onInit DemoResume.cec Demo.fresh) = Ret tt /\
  filter is_call (trace (snd (onInit DemoResume.cec Demo.fresh))) =
    [Dispatch "run_builtin" [PyStr "CECStandby"] [];
     ExecuteBuiltin "CECStandby" true;
     ExecuteJSONRPC (mute_request true);
     MonitorCreated (Some BoundResume);
     Dispatch "log" []
       [("level", PyInt 2); ("msg", PyStr "Do nothing to power off system")]].
Proof.
  split; [reflexivity|].
  destruct (onInit_calls_in_general DemoResume.cec Demo.fresh 1 0
              "cec-builtin" "CEC (buil-in)" "run_builtin"
              (strs ["CECStandby"]) (strs ["CECActivateSource"])
              "do-nothing" "Do nothing" "log"
              [("level", PyInt 2); ("msg", PyStr "Do nothing to power off system")]
              eq_refl eq_refl eq_refl eq_refl)
    as (t & Ht & Hcalls & _).
  rewrite Ht. exact (Hcalls eq_refl).
Defined.

(** ** A display command that fails *)

Lemma add_events_nil s : add_events s [] = s.
Proof. unfold add_events. rewrite app_nil_r. now destruct s. Qed.

Lemma filter_call_report t : forallb is_report t = true -> filter is_call t = [].
Proof.
  induction t as [|e t IH]; [reflexivity|]. simpl.
  intros H. apply andb_true_iff in H as [He Ht].
  destruct e; try discriminate; simpl; auto.
Qed.

Lemma filter_call_xlog t : forallb is_xlog t = true -> filter is_call t = [].
Proof. intros H. now apply filter_call_report, forallb_xlog_report. Qed.

Lemma when_log_entry_display_run h b template n t f aoff aon s max_log_level :
  int h (get_setting h "max_log_level" (PyInt 0)) = Ret max_log_level ->
  exists t2,
    when b (log_entry h template (display_entry n t f aoff aon)) s =
      (Ret tt, add_events s t2) /\
    forallb is_xlog t2 = true.
Proof.
  intros Hint. destruct b; simpl when.
  - change (log_entry h template (display_entry n t f aoff aon))
      with ((log h 1 template
               [("name", PyStr n); ("title", PyStr t); ("function", PyStr f);
                ("args_off", PyList aoff); ("args_on", PyList aon)] ;;
             ret PyNone) ;; ret tt).
    destruct (log_run h 1 template
                [("name", PyStr n); ("title", PyStr t); ("function", PyStr f);
                 ("args_off", PyList aoff); ("args_on", PyList aon)]
                s _ Hint) as (t2 & Ht2 & Hlog).
    exists t2. split; [|assumption]. unfold bind. now rewrite Ht2.
  - exists []. split; [|reflexivity]. now rewrite add_events_nil.
Qed.

Lemma func_run_command_fails h args c0 rest s out rc :
  all_str args = Some (c0 :: rest) ->
  communicate h (trace s ++ [Dispatch "run_command" args []]) (c0 :: rest) [] =
    Completed out rc ->
  rc <> 0 ->
  exists t,
    func h (PyStr "run_command") args [] s =
      (Raise (SystemExit 1),
       add_events s (Dispatch "run_command" args [] ::
                     Popen (c0 :: rest) [] :: t)) /\
    forallb is_report t = true.
Proof.
  intros Hargs Hrun Hrc.
  change (func h (PyStr "run_command") args [] s)
    with (call_run_command h args [] (add_events s [Dispatch "run_command" args []])).
  unfold call_run_command. rewrite Hargs.
  destruct (proj1 (run_command_fails h c0 rest []
                     (add_events s [Dispatch "run_command" args []]))
              out rc Hrun Hrc) as (t & Ht & Hrep).
  exists t. split; [|assumption].
  erewrite bind_raises by exact Ht. now rewrite add_events_app.
Qed.

(** X9: when the display method is a command and that command ends with
    a non-zero return code, the activation stops there with exit code 1:
    the command is the only call made.  The user is not logged off, the
    audio is not muted, no monitor is created and the power method is
    not run. *)
Theorem onInit_stops_at_failed_command h s i j name title args_off args_on p
    c0 rest out rc max_log_level :
  int h (get_setting h "display_method" (PyInt 0)) = Ret i ->
  getitem DISPLAY_METHODS i =
    Ret (display_entry name title "run_command" args_off args_on) ->
  all_str args_off = Some (c0 :: rest) ->
  int h (get_setting h "power_method" (PyInt 0)) = Ret j ->
  getitem POWER_METHODS j = Ret p ->
  int h (get_setting h "max_log_level" (PyInt 0)) = Ret max_log_level ->
  (forall history, communicate h history (c0 :: rest) [] = Completed out rc) ->
  rc <> 0 ->
  fst (onInit h s) = Raise (SystemExit 1) /\
  monitor (self (snd (onInit h s))) = monitor (self s) /\
  exists t,
    trace (snd (onInit h s)) = trace s ++ t /\
    filter is_call t =
      [Dispatch "run_command" args_off []; Popen (c0 :: rest) []].
Proof.
  intros Hi Hd Hargs Hj Hp Hlevel Hrun Hrc.
  destruct (power_entry_shape p (getitem_in _ _ _ Hp))
    as (n' & t' & f' & k' & ->).
  unfold onInit, set_logoff, set_mute_attr, set_display, set_power.
  rewrite !bind_set_self, Hi, bind_lift_ret, Hd, bind_lift_ret, bind_set_self.
  rewrite Hj, bind_lift_ret, Hp, bind_lift_ret, bind_set_self, bind_get.
  cbn [self display power with_self].
  match goal with |- context [bind _ _ ?s1] => set (s0 := s1) end.
  change (dict_get (display_entry name title "run_command" args_off args_on)
            "name" PyNone) with (@ret pyval (PyStr name)).
  rewrite bind_ret_run.
  change (dict_get (power_entry n' t' f' k') "name" PyNone)
    with (@ret pyval (PyStr n')).
  rewrite bind_ret_run.
  match goal with
  | |- context [bind (log h 3 ?msg ?kw) _ s0] =>
      destruct (log_run h 3 msg kw s0 _ Hlevel) as (t1 & Ht1 & Hlog1)
  end.
  erewrite bind_runs by exact Ht1.
  match goal with
  | |- context [bind (when ?b (log_entry h ?tpl ?d)) _ ?st] =>
      destruct (when_log_entry_display_run h b tpl name title "run_command"
                  args_off args_on st _ Hlevel) as (t2 & Ht2 & Hlog2)
  end.
  erewrite bind_runs by exact Ht2.
  change (dict_get (display_entry name title "run_command" args_off args_on)
            "function" PyNone) with (@ret pyval (PyStr "run_command")).
  rewrite bind_ret_run.
  change (dict_get (display_entry name title "run_command" args_off args_on)
            "args_off" PyNone) with (@ret pyval (PyList args_off)).
  rewrite bind_ret_run.
  change (star (PyList args_off)) with (@ret (list pyval) args_off).
  rewrite bind_ret_run.
  destruct (func_run_command_fails h args_off c0 rest
              (add_events (add_events s0 t1) t2) out rc Hargs (Hrun _) Hrc)
    as (t3 & Ht3 & Hrep3).
  erewrite bind_raises by exact Ht3.
  split; [reflexivity|]. split; [reflexivity|].
  eexists. split.
  - cbn [snd add_events trace]. subst s0. cbn [trace with_self].
    rewrite <- !app_assoc. reflexivity.
  - rewrite !filter_app.
    rewrite (filter_call_xlog _ Hlog1), (filter_call_xlog _ Hlog2).
    simpl. now rewrite (filter_call_report _ Hrep3).
Qed.

Lemma onInit_stops_at_failed_command_witness :
  fst (onInit DemoExtra.broken_xset Demo.fresh) = Raise (SystemExit 1) /\
  monitor (self (snd (onInit DemoExtra.broken_xset Demo.fresh))) = Holds None /\
  exists t,
    trace (snd (onInit DemoExtra.broken_xset Demo.fresh)) = trace Demo.fresh ++ t /\
    filter is_call t =
      [Dispatch "run_command" (strs ["xset"; "dpms"; "force"; "off"]) [];
       Popen ["xset"; "dpms"; "force"; "off"] []].
Proof.
  apply (onInit_stops_at_failed_command DemoExtra.broken_xset Demo.fresh 4 0
           "dpms-xset" "DPMS (using xset)"
           (strs ["xset"; "dpms"; "force"; "off"])
           (strs ["xset"; "dpms"; "force"; "on"])
           power_do_nothing "xset" ["dpms"; "force"; "off"] "boom" 5 0);
    try reflexivity.
  lia.
Defined.

(** ** The monitor an activation leaves behind *)

Ltac quiet_chain n :=
  lazymatch n with
  | O => idtac
  | S ?n' =>
      apply (keeps_bind extends extends_trans); [|intros ?; quiet_chain n']
  end.

(** X10: an activation that runs to its end leaves in the dialog's
    monitor attribute a monitor whose stored action is the dialog's
    [resume]; firing that monitor from any state is running [resume]. *)
Theorem onInit_registers_resume h s :
  fst (onInit h s) = Ret tt ->
  monitor (self (snd (onInit h s))) =
    Holds (Some {| action := Some BoundResume |}) /\
  (forall s', onScreensaverDeactivated h {| action := Some BoundResume |} s' =
              resume h s').
Proof.
  intros Hret. split; [|reflexivity].
  destruct (onInit h s) as [o s'] eqn:Hres. simpl in Hret. subst o.
  unfold onInit in Hres.
  do 19 (apply bind_returns in Hres; destruct Hres as (? & ? & _ & Hres)).
  apply bind_returns in Hres. destruct Hres as (m & s20 & Hm & Hres).
  apply bind_returns in Hres. destruct Hres as (u & s21 & Hset & Hres).
  assert (m = {| action := Some BoundResume |}) as ->.
  { unfold new_TurnOffMonitor, bind, emit, ret in Hm. now injection Hm. }
  unfold set_monitor, set_self in Hset. injection Hset as _ <-.
  match type of Hres with
  | ?K _ = _ => assert (HK : keeps extends K)
  end.
  { quiet_chain 5%nat;
      auto using quiet_ret, quiet_when, quiet_dict_get, quiet_starstar,
        quiet_func, quiet_log_entry. }
  match type of Hres with
  | _ ?st = _ => destruct (HK st) as (t & Ht)
  end.
  rewrite Hres in Ht. simpl in Ht. now rewrite Ht.
Qed.

Lemma onInit_registers_resume_witness :
  fst (onInit DemoResume.cec Demo.fresh) = Ret tt /\
  monitor (self (snd (onInit DemoResume.cec Demo.fresh))) =
    Holds (Some {| action := Some BoundResume |}).
Proof.
  split; [reflexivity|].
  apply (onInit_registers_resume DemoResume.cec Demo.fresh). reflexivity.
Defined.

(** ** A whole session *)

(** ** Before the activation *)

(** X12: [resume] on a dialog that was never activated (no display method
    resolved yet, mute not set to true) fails with AttributeError at the
    display method and changes nothing: no call is made, the dialog is
    not closed and its monitor attribute stays.  This is the state the
    constructor leaves. *)
Theorem resume_before_onInit h s :
  (display (self s) = PyNone ->
   eq_str (mute (self s)) "true" = false ->
   resume h s = (Raise AttributeError, s)) /\
  resume h (snd (TurnOffDialog_init s)) =
    (Raise AttributeError, snd (TurnOffDialog_init s)).
Proof.
  split; [|reflexivity].
  intros Hd Hm. unfold resume. rewrite bind_get, Hd, Hm. reflexivity.
Qed.

Lemma resume_before_onInit_witness :
  resume DemoResume.cec Demo.fresh = (Raise AttributeError, Demo.fresh).
Proof.
  apply (proj1 (resume_before_onInit DemoResume.cec Demo.fresh)); reflexivity.
Defined.

(** ** Leaving the process *)

Lemma same_handlers_refl s : same_handlers s s.
Proof. reflexivity. Qed.

Lemma same_handlers_trans s1 s2 s3 :
  same_handlers s1 s2 -> same_handlers s2 s3 -> same_handlers s1 s3.
Proof. unfold same_handlers. congruence. Qed.

Lemma quiet_same_handlers {A} (m : M A) :
  keeps extends m -> keeps same_handlers m.
Proof. intros Hm s. destruct (Hm s) as (t & ->). reflexivity. Qed.

Lemma set_self_same_handlers f : keeps same_handlers (set_self f).
Proof. intros s. reflexivity. Qed.

Ltac handlers_chain n :=
  lazymatch n with
  | O => idtac
  | S ?n' =>
      apply (keeps_bind same_handlers same_handlers_trans);
      [|intros ?; handlers_chain n']
  end.

Lemma onInit_same_handlers h : keeps same_handlers (onInit h).
Proof.
  assert (Hon : forall m1 m2 : M unit,
            keeps extends m1 -> keeps extends m2 ->
            keeps extends (m1 ;; m2)).
  { intros. apply (keeps_bind extends extends_trans); auto. }
  unfold onInit, set_logoff, set_mute_attr, set_display, set_power, set_monitor.
  handlers_chain 26%nat;
    try apply set_self_same_handlers;
    apply quiet_same_handlers;
    auto using quiet_ret, quiet_get, quiet_lift, quiet_when, quiet_dict_get,
      quiet_star, quiet_starstar, quiet_func, quiet_log_entry, quiet_log,
      quiet_new_TurnOffMonitor, quiet_activate_window, quiet_set_mute.
Qed.

(** X13: the constructor registers [exit] with [atexit], and an
    activation never touches that registration.  So however the
    activation ended, a failed command that leaves the process included,
    the handlers run at interpreter exit close the dialog and remove its
    monitor attribute, and do not fail. *)
Theorem atexit_cleans_up h s :
  atexit_handlers s = [] ->
  atexit_handlers (snd (onInit h (snd (TurnOffDialog_init s)))) = [BoundExit] /\
  fst (run_atexit h (snd (onInit h (snd (TurnOffDialog_init s))))) = Ret tt /\
  monitor (self (snd (run_atexit h (snd (onInit h (snd (TurnOffDialog_init s)))))))
    = Deleted /\
  trace (snd (run_atexit h (snd (onInit h (snd (TurnOffDialog_init s)))))) =
    trace (snd (onInit h (snd (TurnOffDialog_init s)))) ++ [Close].
Proof.
  intros Hs.
  pose proof (onInit_same_handlers h (snd (TurnOffDialog_init s))) as Hh.
  assert (Hinit : atexit_handlers (snd (TurnOffDialog_init s)) = [BoundExit])
    by (simpl; now rewrite Hs).
  unfold same_handlers in Hh. rewrite Hinit in Hh.
  split; [exact Hh|]. split; [reflexivity|].
  unfold run_atexit. rewrite Hh. cbn [rev app fold_left snd call].
  rewrite exit_run. now split.
Qed.

Lemma atexit_cleans_up_witness :
  fst (onInit DemoExtra.broken_xset (snd (TurnOffDialog_init DemoExtra.blank))) =
    Raise (SystemExit 1) /\
  atexit_handlers
    (snd (onInit DemoExtra.broken_xset (snd (TurnOffDialog_init DemoExtra.blank))))
    = [BoundExit] /\
  fst (run_atexit DemoExtra.broken_xset
         (snd (onInit DemoExtra.broken_xset
                 (snd (TurnOffDialog_init DemoExtra.blank))))) = Ret tt /\
  monitor (self (snd (run_atexit DemoExtra.broken_xset
                        (snd (onInit DemoExtra.broken_xset
                                (snd (TurnOffDialog_init DemoExtra.blank)))))))
    = Deleted /\
  trace (snd (run_atexit DemoExtra.broken_xset
                (snd (onInit DemoExtra.broken_xset
                        (snd (TurnOffDialog_init DemoExtra.blank)))))) =
    trace (snd (onInit DemoExtra.broken_xset
                  (snd (TurnOffDialog_init DemoExtra.blank)))) ++ [Close].
Proof.
  split; [reflexivity|].
  apply (atexit_cleans_up DemoExtra.broken_xset DemoExtra.blank). reflexivity.
Defined.

(** ** What stays as configured *)

(** X14: after the activation has stored them, the dialog's display
    method, power method, logoff and mute settings are never written
    again, and neither are [DEBUG_LOGGING] and the registered exit
    handlers: [resume], [exit] and the monitor's handler leave all of
    them as they found them. *)
Theorem configuration_is_kept h s :
  same_config s (snd (resume h s)) /\
  same_config s (snd (exit s)) /\
  (forall m, same_config s (snd (onScreensaverDeactivated h m s))) /\
  same_config s (snd (run_atexit h s)).
Proof.
  split; [apply resume_same_config|].
  split; [apply exit_same_config|].
  assert (Hcall : forall c s', same_config s' (snd (call h c s'))).
  { intros [] s'; [apply resume_same_config | apply exit_same_config]. }
  split.
  - intros [[c|]]; unfold onScreensaverDeactivated; simpl action.
    + apply Hcall.
    + apply same_config_refl.
  - unfold run_atexit. simpl snd.
    generalize (rev (atexit_handlers s)). intros l.
    assert (forall s', same_config s' (fold_left (fun s0 c => snd (call h c s0)) l s')) as H.
    { induction l as [|c l IH]; intros s'; simpl.
      - apply same_config_refl.
      - eapply same_config_trans; [apply Hcall | apply IH]. }
    apply H.
Qed.

(** ** Every request is a complete request *)

Lemma forallb_of_filter (P Q : event -> bool) t :
  (forall e, P e = false -> Q e = true) ->
  forallb Q (filter P t) = true -> forallb Q t = true.
Proof.
  intros HPQ. induction t as [|e t IH]; [reflexivity|]. simpl.
  destruct (P e) eqn:He; simpl.
  - intros H. apply andb_true_iff in H as [-> H]. now apply IH.
  - intros H. rewrite (HPQ e He). now apply IH.
Qed.

Lemma marks_at_all (Q : event -> bool) {A} (m : M A) s l :
  (forall e, is_call e = false -> Q e = true) ->
  marks_at is_call m s l ->
  forallb Q l = true ->
  exists t, trace (snd (m s)) = trace s ++ t /\ forallb Q t = true.
Proof.
  intros HQ (t & Ht & Hl) Hall. exists t. split; [assumption|].
  apply (forallb_of_filter is_call Q t HQ).
  destruct (fst (m s)).
  - now rewrite Hl.
  - destruct Hl as (rest & ->). rewrite forallb_app in Hall.
    now apply andb_true_iff in Hall as [H _].
Qed.

Lemma has_envelope_not_call e : is_call e = false -> has_envelope e = true.
Proof. now destruct e. Qed.

Lemma display_methods_envelope name title function args_off args_on :
  In (display_entry name title function args_off args_on) DISPLAY_METHODS ->
  forallb has_envelope (calls (PyStr function) args_off []) = true /\
  forallb has_envelope (calls (PyStr function) args_on []) = true.
Proof.
  unfold DISPLAY_METHODS, display_entry. simpl.
  intros H.
  repeat (destruct H as [H | H];
          [injection H as <- <- <- <- <-; split; reflexivity|]).
  contradiction.
Qed.

Lemma power_methods_envelope name title function kwargs_off :
  In (power_entry name title function kwargs_off) POWER_METHODS ->
  forallb has_envelope (calls (PyStr function) [] kwargs_off) = true.
Proof.
  unfold POWER_METHODS, power_entry. simpl.
  intros H.
  repeat (destruct H as [H | H]; [injection H as <- <- <- <-; reflexivity|]).
  contradiction.
Qed.

(** X15: every JSON-RPC request an activation or a resume sends, for
    whatever methods the settings select from the catalogs, carries id 1
    and jsonrpc 2.0: no catalog entry brings an id or a protocol version
    of its own. *)
Theorem requests_carry_envelope h s :
  (forall i j d p,
     int h (get_setting h "display_method" (PyInt 0)) = Ret i ->
     getitem DISPLAY_METHODS i = Ret d ->
     int h (get_setting h "power_method" (PyInt 0)) = Ret j ->
     getitem POWER_METHODS j = Ret p ->
     exists t, trace (snd (onInit h s)) = trace s ++ t /\
               forallb has_envelope t = true) /\
  (In (display (self s)) DISPLAY_METHODS ->
   exists t, trace (snd (resume h s)) = trace s ++ t /\
             forallb has_envelope t = true).
Proof.
  split.
  - intros i j d p Hi Hd Hj Hp.
    destruct (display_entry_shape d (getitem_in _ _ _ Hd))
      as (n & t & f & aoff & aon & ->).
    destruct (power_entry_shape p (getitem_in _ _ _ Hp))
      as (n' & t' & f' & k' & ->).
    apply (marks_at_all has_envelope _ _ _ has_envelope_not_call
             (onInit_calls h s i j _ _ _ _ _ _ _ _ _ Hi Hd Hj Hp)).
    rewrite !forallb_app.
    rewrite (proj1 (display_methods_envelope _ _ _ _ _ (getitem_in _ _ _ Hd))).
    rewrite (power_methods_envelope _ _ _ _ (getitem_in _ _ _ Hp)).
    destruct (eq_str (get_setting h "logoff" (PyStr "false")) "true");
      destruct (eq_str (get_setting h "mute" (PyStr "true")) "true");
      reflexivity.
  - intros Hin.
    destruct (display_entry_shape _ Hin) as (n & t & f & aoff & aon & Hd).
    apply (marks_at_all has_envelope _ _ _ has_envelope_not_call
             (resume_calls h s _ _ _ _ _ Hd)).
    rewrite Hd in Hin. rewrite forallb_app.
    rewrite (proj2 (display_methods_envelope _ _ _ _ _ Hin)).
    destruct (eq_str (mute (self s)) "true"); reflexivity.
Qed.

Lemma requests_carry_envelope_witness :
  (exists t, trace (snd (onInit DemoOrder.living_room Demo.fresh)) =
               trace Demo.fresh ++ t /\
             forallb has_envelope t = true) /\
  (exists t, trace (snd (resume DemoResume.cec DemoResume.watching)) =
               trace DemoResume.watching ++ t /\
             forallb has_envelope t = true).
Proof.
  split.
  - apply (proj1 (requests_carry_envelope DemoOrder.living_room Demo.fresh)
             4 1
             (display_entry "dpms-xset" "DPMS (using xset)" "run_command"
                (strs ["xset"; "dpms"; "force"; "off"])
                (strs ["xset"; "dpms"; "force"; "on"]))
             (power_entry "suspend-builtin" "Suspend (built-in)" "jsonrpc"
                [("method", PyStr "System.Suspend")]));
      reflexivity.
  - apply (proj2 (requests_carry_envelope DemoResume.cec DemoResume.watching)).
    right. left. reflexivity.
Defined.

(** ** The ways an activation can fail *)

Section Throws.

Variable E : exn -> bool.

Lemma throws_bind {A B} (m : M A) (k : A -> M B) :
  throws E m -> (forall a, throws E (k a)) -> throws E (bind m k).
Proof.
  intros Hm Hk s e. unfold bind. specialize (Hm s).
  destruct (m s) as [[a | e'] s']; simpl in *.
  - apply Hk.
  - intros [= <-]. now apply Hm.
Qed.

Lemma throws_ret {A} (a : A) : throws E (ret a).
Proof. intros s e. discriminate. Qed.

Lemma throws_raise {A} e : E e = true -> throws E (@raise A e).
Proof. intros He s e' [= <-]. assumption. Qed.

Lemma throws_lift {A} (o : outcome A) :
  (forall e, o = Raise e -> E e = true) -> throws E (lift o).
Proof. intros Ho s e H. apply Ho. exact H. Qed.

Lemma throws_get : throws E get.
Proof. intros s e. discriminate. Qed.

Lemma throws_emit ev : throws E (emit ev).
Proof. intros s e. discriminate. Qed.

Lemma throws_when b m : throws E m -> throws E (when b m).
Proof. destruct b; simpl; [trivial | intros _; apply throws_ret]. Qed.

Lemma throws_at_step {A B} (m : M A) (k : A -> M B) s a s' :
  m s = (Ret a, s') -> throws_at E (k a) s' -> throws_at E (bind m k) s.
Proof. intros Hm Hk e. unfold bind. rewrite Hm. apply Hk. Qed.

Lemma throws_at_bind {A B} (m : M A) (k : A -> M B) s :
  throws E m -> (forall a s', throws_at E (k a) s') ->
  throws_at E (bind m k) s.
Proof.
  intros Hm Hk e. unfold bind. specialize (Hm s).
  destruct (m s) as [[a | e'] s']; simpl in *.
  - apply Hk.
  - intros [= <-]. now apply Hm.
Qed.

End Throws.

Section Expected.

Variable h : Host.

Local Abbreviation expected := (throws is_expected).

Lemma int_setting_raises setting_id z e :
  int h (get_setting h setting_id (PyInt z)) = Raise e -> e = ValueError.
Proof.
  unfold get_setting. destruct (_ && _); simpl; [discriminate|].
  destruct (int_of_str h _); [discriminate | now intros [= <-]].
Qed.

Lemma expected_log level msg kwargs : expected (log h level msg kwargs).
Proof.
  unfold log. apply throws_bind.
  - apply throws_lift. intros e He. now rewrite (int_setting_raises _ _ _ He).
  - intros lvl. apply throws_bind; [apply throws_get|]. intros s.
    destruct (_ && _); [apply throws_ret | apply throws_emit].
Qed.

Lemma expected_jsonrpc kwargs : expected (jsonrpc h kwargs).
Proof.
  unfold jsonrpc. apply throws_bind; [apply throws_get|]. intros s.
  apply throws_bind; [apply throws_emit|]. intros _.
  destruct (loads h _); [|now apply throws_raise].
  apply throws_bind; [apply expected_log | intros; apply throws_ret].
Qed.

Lemma expected_set_mute toggle : expected (set_mute h toggle).
Proof.
  unfold set_mute. apply throws_bind; [apply expected_jsonrpc|].
  intros; apply throws_ret.
Qed.

Lemma expected_activate_window window : expected (activate_window h window).
Proof.
  unfold activate_window. apply throws_bind; [apply expected_jsonrpc|].
  intros; apply throws_ret.
Qed.

Lemma expected_run_builtin builtin : expected (run_builtin h builtin).
Proof.
  unfold run_builtin. apply throws_bind; [apply expected_log|].
  intros; apply throws_emit.
Qed.

Lemma expected_first c0 rest : expected (first (c0 :: rest)).
Proof. intros s e. rewrite first_cons. discriminate. Qed.

Lemma expected_run_command c0 rest kwargs :
  expected (run_command h (c0 :: rest) kwargs).
Proof.
  unfold run_command. apply throws_bind; [apply throws_get|]. intros s.
  apply throws_bind; [apply throws_emit|]. intros _.
  destruct (communicate h _ _ _) as [out rc | exc].
  - destruct (rc =? 0); [apply expected_log|].
    apply throws_bind; [apply throws_emit|]. intros _.
    apply throws_bind.
    { apply throws_when. apply throws_bind; [apply expected_first|].
      intros; apply throws_emit. }
    intros _. apply throws_bind; [apply throws_emit|].
    intros; now apply throws_raise.
  - apply throws_bind; [apply expected_first|]. intros c.
    apply throws_bind; [apply throws_emit|]. intros _.
    apply throws_bind; [apply expected_first|]. intros c'.
    apply throws_bind; [apply throws_emit|].
    intros; now apply throws_raise.
Qed.

Ltac expected_auto :=
  repeat first
    [ apply throws_ret
    | apply throws_emit
    | apply expected_log
    | apply expected_run_builtin
    | apply expected_run_command
    | apply expected_jsonrpc
    | apply throws_bind; [|intros ?] ].

Ltac dispatch_compute :=
  cbv [func globals call_log call_run_builtin call_run_command call_jsonrpc
       log_entry starstar all_str strs map Dict.merge Dict.mem Dict.lookup
       Dict.remove or_default app String.eqb Ascii.eqb Bool.eqb andb orb].

Lemma expected_display_dispatch name title function args_off args_on :
  In (display_entry name title function args_off args_on) DISPLAY_METHODS ->
  expected (func h (PyStr function) args_off []) /\
  expected (func h (PyStr function) args_on []).
Proof.
  unfold DISPLAY_METHODS, display_entry. simpl.
  intros H.
  repeat (destruct H as [H | H];
          [injection H as <- <- <- <- <-; split; dispatch_compute; expected_auto|]).
  contradiction.
Qed.

Lemma expected_power_dispatch name title function kwargs_off :
  In (power_entry name title function kwargs_off) POWER_METHODS ->
  expected (func h (PyStr function) [] kwargs_off).
Proof.
  unfold POWER_METHODS, power_entry. simpl.
  intros H.
  repeat (destruct H as [H | H];
          [injection H as <- <- <- <-; dispatch_compute; expected_auto|]).
  contradiction.
Qed.

Lemma expected_log_entry_display template n t f aoff aon :
  expected (log_entry h template (display_entry n t f aoff aon)).
Proof.
  change (log_entry h template (display_entry n t f aoff aon))
    with ((log h 1 template
             [("name", PyStr n); ("title", PyStr t); ("function", PyStr f);
              ("args_off", PyList aoff); ("args_on", PyList aon)] ;;
           ret PyNone) ;; ret tt).
  expected_auto.
Qed.

Lemma expected_log_entry_power template n t f k :
  expected (log_entry h template (power_entry n t f k)).
Proof.
  change (log_entry h template (power_entry n t f k))
    with ((log h 1 template
             [("name", PyStr n); ("title", PyStr t); ("function", PyStr f);
              ("kwargs_off", PyDict k)] ;;
           ret PyNone) ;; ret tt).
  expected_auto.
Qed.

End Expected.

Lemma is_expected_cases e :
  is_expected e = true ->
  e = ValueError \/ e = SystemExit 1 \/ e = SystemExit 2.
Proof.
  destruct e as [| | | | |code]; try discriminate; [now left|].
  simpl. intros H. apply orb_true_iff in H as [H | H];
    apply Z.eqb_eq in H; subst; auto.
Qed.

Ltac throw_step := eapply throws_at_step; [reflexivity | cbv beta].

(** X16: once the settings have selected methods from the catalogs, an
    activation or a resume that does not run to its end can only have
    ended in ValueError (a log level or a reply that cannot be read) or
    by leaving the process with exit code 1 or 2 (a command that failed
    or could not be started).  The catalog entries always fit the
    functions they name: no TypeError, KeyError, AttributeError or
    IndexError comes out of the dispatch. *)
Theorem only_expected_failures h s :
  (forall i j d p e,
     int h (get_setting h "display_method" (PyInt 0)) = Ret i ->
     getitem DISPLAY_METHODS i = Ret d ->
     int h (get_setting h "power_method" (PyInt 0)) = Ret j ->
     getitem POWER_METHODS j = Ret p ->
     fst (onInit h s) = Raise e ->
     e = ValueError \/ e = SystemExit 1 \/ e = SystemExit 2) /\
  (forall e,
     In (display (self s)) DISPLAY_METHODS ->
     fst (resume h s) = Raise e ->
     e = ValueError \/ e = SystemExit 1 \/ e = SystemExit 2).
Proof.
  split.
  - intros i j d p e Hi Hd Hj Hp Hraise. apply is_expected_cases.
    revert e Hraise. change (throws_at is_expected (onInit h) s).
    pose proof (getitem_in _ _ _ Hd) as Hind.
    pose proof (getitem_in _ _ _ Hp) as Hinp.
    destruct (display_entry_shape d Hind) as (n & t & f & aoff & aon & ->).
    destruct (power_entry_shape p Hinp) as (n' & t' & f' & k' & ->).
    unfold onInit, set_logoff, set_mute_attr, set_display, set_power.
    do 2 throw_step. rewrite Hi. throw_step. rewrite Hd. do 2 throw_step.
    rewrite Hj. throw_step. rewrite Hp. do 2 throw_step. throw_step.
    cbn [self display logoff mute power with_self].
    do 2 throw_step.
    apply throws_at_bind; [apply expected_log | intros _ s1].
    apply throws_at_bind;
      [apply throws_when, expected_log_entry_display | intros _ s2].
    do 3 throw_step.
    apply throws_at_bind;
      [apply (proj1 (expected_display_dispatch h _ _ _ _ _ Hind)) | intros _ s3].
    apply throws_at_bind; [|intros _ s4].
    { apply throws_when, throws_bind;
        [apply expected_log | intros; apply expected_activate_window]. }
    apply throws_at_bind; [|intros _ s5].
    { apply throws_when, throws_bind;
        [apply expected_log | intros; apply expected_set_mute]. }
    apply throws_at_bind; [|intros m s6].
    { unfold new_TurnOffMonitor. apply throws_bind; [apply throws_emit|].
      intros; apply throws_ret. }
    throw_step.
    apply throws_at_bind;
      [apply throws_when, expected_log_entry_power | intros _ s7].
    do 3 throw_step.
    apply throws_at_bind;
      [apply (expected_power_dispatch h _ _ _ _ Hinp)
      | intros a s' e; discriminate].
  - intros e Hin Hraise. apply is_expected_cases.
    revert e Hraise. change (throws_at is_expected (resume h) s).
    destruct (display_entry_shape _ Hin) as (n & t & f & aoff & aon & Hd).
    rewrite Hd in Hin.
    unfold resume. throw_step. rewrite Hd.
    apply throws_at_bind; [|intros _ s1].
    { apply throws_when, throws_bind;
        [apply expected_log | intros; apply expected_set_mute]. }
    throw_step.
    apply throws_at_bind;
      [apply throws_when, expected_log_entry_display | intros _ s2].
    do 3 throw_step.
    apply throws_at_bind;
      [apply (proj2 (expected_display_dispatch h _ _ _ _ _ Hin)) | intros _ s3].
    intros e. rewrite exit_run. discriminate.
Qed.

Lemma only_expected_failures_witness :
  fst (onInit DemoExtra.broken_xset Demo.fresh) = Raise (SystemExit 1) /\
  (SystemExit 1 = ValueError \/ SystemExit 1 = SystemExit 1 \/
   SystemExit 1 = SystemExit 2) /\
  (forall e,
     fst (resume DemoResume.cec DemoResume.watching) = Raise e ->
     e = ValueError \/ e = SystemExit 1 \/ e = SystemExit 2).
Proof.
  split; [reflexivity|]. split.
  - apply (proj1 (only_expected_failures DemoExtra.broken_xset Demo.fresh)
             4 0
             (display_entry "dpms-xset" "DPMS (using xset)" "run_command"
                (strs ["xset"; "dpms"; "force"; "off"])
                (strs ["xset"; "dpms"; "force"; "on"]))
             power_do_nothing (SystemExit 1));
      reflexivity.
  - intros e.
    apply (proj2 (only_expected_failures DemoResume.cec DemoResume.watching) e).
    right. left. reflexivity.
Defined.

(** ** A host on which nothing goes wrong *)

Lemma never_raises_returns {A} (m : M A) s :
  throws_at never m s -> exists a, fst (m s) = Ret a.
Proof.
  intros H. destruct (fst (m s)) as [a | e] eqn:E; [now exists a|].
  specialize (H e E). discriminate.
Qed.

Lemma never_raises_unit (m : M unit) s :
  throws_at never m s -> fst (m s) = Ret tt.
Proof.
  intros H. destruct (never_raises_returns m s H) as ([] & Ha). exact Ha.
Qed.

Section Healthy.

Variable h : Host.
Hypothesis host_is_healthy : healthy h.

Local Abbreviation safe := (throws never).

Lemma safe_log level msg kwargs : safe (log h level msg kwargs).
Proof.
  destruct host_is_healthy as ((lvl & Hlvl) & _).
  unfold log. rewrite Hlvl. apply throws_bind.
  - apply throws_lift. discriminate.
  - intros max_log_level. apply throws_bind; [apply throws_get|]. intros s.
    destruct (_ && _); [apply throws_ret | apply throws_emit].
Qed.

Lemma safe_jsonrpc kwargs : safe (jsonrpc h kwargs).
Proof.
  destruct host_is_healthy as (_ & Hreply & _).
  unfold jsonrpc. apply throws_bind; [apply throws_get|]. intros s.
  apply throws_bind; [apply throws_emit|]. intros _.
  match goal with
  | |- context [loads h (executeJSONRPC h ?tr (dumps h ?req))] =>
      destruct (Hreply tr req) as (reply & Hr); rewrite Hr
  end.
  apply throws_bind; [apply safe_log | intros; apply throws_ret].
Qed.

Lemma safe_set_mute toggle : safe (set_mute h toggle).
Proof.
  unfold set_mute. apply throws_bind; [apply safe_jsonrpc|].
  intros; apply throws_ret.
Qed.


Lemma safe_run_builtin builtin : safe (run_builtin h builtin).
Proof.
  unfold run_builtin. apply throws_bind; [apply safe_log|].
  intros; apply throws_emit.
Qed.

Lemma safe_run_command command kwargs : safe (run_command h command kwargs).
Proof.
  destruct host_is_healthy as (_ & _ & Hcommand).
  unfold run_command. apply throws_bind; [apply throws_get|]. intros s.
  apply throws_bind; [apply throws_emit|]. intros _.
  destruct (Hcommand (trace s) command kwargs) as (out & Hout).
  rewrite Hout. change (0 =? 0) with true. cbv iota. apply safe_log.
Qed.

Ltac safe_auto :=
  repeat first
    [ apply throws_ret
    | apply throws_emit
    | apply safe_log
    | apply safe_run_builtin
    | apply safe_run_command
    | apply safe_jsonrpc
    | apply throws_bind; [|intros ?] ].

Ltac dispatch_compute :=
  cbv [func globals call_log call_run_builtin call_run_command call_jsonrpc
       log_entry starstar all_str strs map Dict.merge Dict.mem Dict.lookup
       Dict.remove or_default app String.eqb Ascii.eqb Bool.eqb andb orb].

Lemma safe_display_dispatch name title function args_off args_on :
  In (display_entry name title function args_off args_on) DISPLAY_METHODS ->
  safe (func h (PyStr function) args_off []) /\
  safe (func h (PyStr function) args_on []).
Proof.
  unfold DISPLAY_METHODS, display_entry. simpl.
  intros H.
  repeat (destruct H as [H | H];
          [injection H as <- <- <- <- <-; split; dispatch_compute; safe_auto|]).
  contradiction.
Qed.


Lemma safe_log_entry_display template n t f aoff aon :
  safe (log_entry h template (display_entry n t f aoff aon)).
Proof.
  change (log_entry h template (display_entry n t f aoff aon))
    with ((log h 1 template
             [("name", PyStr n); ("title", PyStr t); ("function", PyStr f);
              ("args_off", PyList aoff); ("args_on", PyList aon)] ;;
           ret PyNone) ;; ret tt).
  safe_auto.
Qed.


Ltac safe_step := eapply throws_at_step; [reflexivity | cbv beta].


(** On a healthy host [resume] runs to its end whenever the dialog's
    display method is an entry of the catalog. *)
Lemma resume_returns s :
  In (display (self s)) DISPLAY_METHODS ->
  fst (resume h s) = Ret tt.
Proof.
  intros Hin. apply never_raises_unit.
  destruct (display_entry_shape _ Hin) as (n & t & f & aoff & aon & Hd).
  rewrite Hd in Hin.
  unfold resume. safe_step. rewrite Hd.
  apply throws_at_bind; [|intros _ s1].
  { apply throws_when, throws_bind;
      [apply safe_log | intros; apply safe_set_mute]. }
  safe_step.
  apply throws_at_bind;
    [apply throws_when, safe_log_entry_display | intros _ s2].
  do 3 safe_step.
  apply throws_at_bind;
    [apply (proj2 (safe_display_dispatch _ _ _ _ _ Hin)) | intros _ s3].
  intros e. rewrite exit_run. discriminate.
Qed.

End Healthy.

Lemma resume_removes_monitor h s :
  fst (resume h s) = Ret tt -> monitor (self (snd (resume h s))) = Deleted.
Proof.
  intros Hr. destruct (resume h s) as [o s2] eqn:Hres.
  simpl in Hr. subst o. unfold resume in Hres.
  do 8 (apply bind_returns in Hres; destruct Hres as (? & ? & _ & Hres)).
  rewrite exit_run in Hres. now inversion Hres.
Qed.

(** ** The order of activation, on every host *)



(** ** Resuming, on every host *)

(** C7 (as the code has it): on a healthy host [resume] runs to its end
    for every display method of the catalog, and the calls of a [resume]
    that runs to its end are: mute set to false exactly when the mute
    setting is 'true', then the display method's function on its
    [args_on] (always: for the do-nothing entry this is its log
    statement), and no other call: whatever the power method is, no
    on-action is run for it.  A [resume] that is cut short has made the
    first few of these calls. *)
Theorem resume_undoes_mute_and_display h s name title function args_off args_on :
  display (self s) = display_entry name title function args_off args_on ->
  (healthy h ->
   In (display_entry name title function args_off args_on) DISPLAY_METHODS ->
   fst (resume h s) = Ret tt) /\
  exists t,
    trace (snd (resume h s)) = trace s ++ t /\
    (fst (resume h s) = Ret tt ->
     filter is_call t =
       (if eq_str (mute (self s)) "true"
        then [ExecuteJSONRPC (mute_request false)] else []) ++
       calls (PyStr function) args_on []) /\
    (exists rest,
       (if eq_str (mute (self s)) "true"
        then [ExecuteJSONRPC (mute_request false)] else []) ++
       calls (PyStr function) args_on [] = filter is_call t ++ rest).
Proof.
  intros Hd. split.
  - intros Hh Hin. apply (resume_returns h Hh). now rewrite Hd.
  - destruct (marks_at_explicit _ _ _ _ (resume_calls h s _ _ _ _ _ Hd))
      as (t & Ht & Hret & Hpre).
    exists t. split; [assumption|]. split; [|exact Hpre].
    intros Hr. exact (Hret tt Hr).
Qed.

Lemma resume_undoes_mute_and_display_witness :
  healthy DemoResume.cec /\
  fst (resume DemoResume.cec DemoResume.watching) = Ret tt /\
  exists t,
    trace (snd (resume DemoResume.cec DemoResume.watching)) =
      trace DemoResume.watching ++ t /\
    filter is_call t =
      [ExecuteJSONRPC (mute_request false);
       Dispatch "run_builtin" [PyStr "CECActivateSource"] [];
       ExecuteBuiltin "CECActivateSource" true].
Proof.
  assert (Hh : healthy DemoResume.cec).
  { split; [exists 0; reflexivity|].
    split; intros; eexists; reflexivity. }
  destruct (resume_undoes_mute_and_display DemoResume.cec DemoResume.watching
              "cec-builtin" "CEC (buil-in)" "run_builtin"
              (strs ["CECStandby"]) (strs ["CECActivateSource"]) eq_refl)
    as (Hreturns & t & Ht & Hcalls & _).
  assert (Hr : fst (resume DemoResume.cec DemoResume.watching) = Ret tt).
  { apply (Hreturns Hh). right. left. reflexivity. }
  split; [exact Hh|]. split; [exact Hr|].
  exists t. split; [exact Ht | exact (Hcalls Hr)].
Defined.

(** ** The monitor, on every host *)

(** C2 (as the code has it): the monitor keeps no record of having fired.
    On a healthy host, with a display method of the catalog, two firings
    of the deactivation event in succession both run to their end, and
    each firing that runs to its end has made the calls of the resume
    sequence: the unmute request (when mute is set) and the display
    method's on-action, the second time as the first.  The first firing
    removes the dialog's monitor attribute and the second leaves it
    removed.  A firing that is cut short has made the first few calls of
    the sequence. *)
Theorem onScreensaverDeactivated_fires_every_time
    h m s name title function args_off args_on :
  action m = Some BoundResume ->
  display (self s) = display_entry name title function args_off args_on ->
  (healthy h ->
   In (display_entry name title function args_off args_on) DISPLAY_METHODS ->
   fst (onScreensaverDeactivated h m s) = Ret tt /\
   fst (onScreensaverDeactivated h m
          (snd (onScreensaverDeactivated h m s))) = Ret tt) /\
  (fst (onScreensaverDeactivated h m s) = Ret tt ->
   monitor (self (snd (onScreensaverDeactivated h m s))) = Deleted) /\
  (fst (onScreensaverDeactivated h m
          (snd (onScreensaverDeactivated h m s))) = Ret tt ->
   monitor (self (snd (onScreensaverDeactivated h m
                         (snd (onScreensaverDeactivated h m s))))) = Deleted) /\
  exists t1 t2,
    trace (snd (onScreensaverDeactivated h m s)) = trace s ++ t1 /\
    trace (snd (onScreensaverDeactivated h m
                  (snd (onScreensaverDeactivated h m s)))) =
      (trace s ++ t1) ++ t2 /\
    (fst (onScreensaverDeactivated h m s) = Ret tt ->
     filter is_call t1 =
       (if eq_str (mute (self s)) "true"
        then [ExecuteJSONRPC (mute_request false)] else []) ++
       calls (PyStr function) args_on []) /\
    (fst (onScreensaverDeactivated h m
            (snd (onScreensaverDeactivated h m s))) = Ret tt ->
     filter is_call t2 =
       (if eq_str (mute (self s)) "true"
        then [ExecuteJSONRPC (mute_request false)] else []) ++
       calls (PyStr function) args_on []) /\
    (exists rest,
       (if eq_str (mute (self s)) "true"
        then [ExecuteJSONRPC (mute_request false)] else []) ++
       calls (PyStr function) args_on [] = filter is_call t1 ++ rest) /\
    (exists rest,
       (if eq_str (mute (self s)) "true"
        then [ExecuteJSONRPC (mute_request false)] else []) ++
       calls (PyStr function) args_on [] = filter is_call t2 ++ rest).
Proof.
  intros Hm Hd. unfold onScreensaverDeactivated. rewrite Hm. simpl call.
  destruct (resume_same_config h s) as (Hd1 & _ & Hmute1 & _).
  rewrite Hd in Hd1.
  split; [|split; [apply resume_removes_monitor
                  |split; [apply resume_removes_monitor|]]].
  - intros Hh Hin. split; apply (resume_returns h Hh).
    + now rewrite Hd.
    + now rewrite Hd1.
  - destruct (marks_at_explicit _ _ _ _ (resume_calls h s _ _ _ _ _ Hd))
      as (t1 & Ht1 & Hret1 & Hpre1).
    destruct (marks_at_explicit _ _ _ _
                (resume_calls h (snd (resume h s)) _ _ _ _ _ Hd1))
      as (t2 & Ht2 & Hret2 & Hpre2).
    rewrite Hmute1 in Hret2, Hpre2.
    exists t1, t2. split; [assumption|]. split; [now rewrite Ht2, Ht1|].
    split; [intros Hr; exact (Hret1 tt Hr)|].
    split; [intros Hr; exact (Hret2 tt Hr)|].
    split; assumption.
Qed.

Lemma onScreensaverDeactivated_fires_every_time_witness :
  healthy DemoResume.cec /\
  monitor (self DemoResume.watching) = Holds (Some DemoResume.the_monitor) /\
  fst (onScreensaverDeactivated DemoResume.cec DemoResume.the_monitor
         DemoResume.watching) = Ret tt /\
  fst (onScreensaverDeactivated DemoResume.cec DemoResume.the_monitor
         (snd (onScreensaverDeactivated DemoResume.cec DemoResume.the_monitor
                 DemoResume.watching))) = Ret tt /\
  monitor (self (snd (onScreensaverDeactivated DemoResume.cec
                        DemoResume.the_monitor DemoResume.watching))) = Deleted /\
  exists t1 t2,
    trace (snd (onScreensaverDeactivated DemoResume.cec DemoResume.the_monitor
                  (snd (onScreensaverDeactivated DemoResume.cec
                          DemoResume.the_monitor DemoResume.watching)))) =
      (trace DemoResume.watching ++ t1) ++ t2 /\
    filter is_call t1 =
      [ExecuteJSONRPC (mute_request false);
       Dispatch "run_builtin" [PyStr "CECActivateSource"] [];
       ExecuteBuiltin "CECActivateSource" true] /\
    filter is_call t2 =
      [ExecuteJSONRPC (mute_request false);
       Dispatch "run_builtin" [PyStr "CECActivateSource"] [];
       ExecuteBuiltin "CECActivateSource" true].
Proof.
  assert (Hh : healthy DemoResume.cec).
  { split; [exists 0; reflexivity|].
    split; intros; eexists; reflexivity. }
  destruct (onScreensaverDeactivated_fires_every_time
              DemoResume.cec DemoResume.the_monitor DemoResume.watching
              "cec-builtin" "CEC (buil-in)" "run_builtin"
              (strs ["CECStandby"]) (strs ["CECActivateSource"])
              eq_refl eq_refl)
    as (Hreturns & Hgone & _ & t1 & t2 & _ & Ht2 & Hc1 & Hc2 & _).
  destruct (Hreturns Hh (or_intror (or_introl eq_refl))) as (Hr1 & Hr2).
  split; [exact Hh|]. split; [reflexivity|].
  split; [exact Hr1|]. split; [exact Hr2|]. split; [exact (Hgone Hr1)|].
  exists t1, t2. split; [exact Ht2|].
  split; [exact (Hc1 Hr1) | exact (Hc2 Hr2)].
Defined.

(** ** Remote calls, on every host *)

Lemma jsonrpc_level_unreadable h kwargs s reply e :
  loads h (executeJSONRPC h (trace s) (dumps h (envelope kwargs))) = Some reply ->
  int h (get_setting h "max_log_level" (PyInt 0)) = Raise e ->
  jsonrpc h kwargs s =
    (Raise e, add_events s [ExecuteJSONRPC (envelope kwargs)]).
Proof.
  intros Hreply Hint. unfold jsonrpc. fold (envelope kwargs).
  unfold bind at 1. unfold get at 1. unfold bind at 1. unfold emit at 1.
  rewrite Hreply.
  erewrite bind_raises by (apply log_unreadable; exact Hint).
  reflexivity.
Qed.

(** C3 (as the code has it): called with keyword arguments that carry no
    id and no jsonrpc key of their own, [jsonrpc] sends a request holding
    jsonrpc 2.0 and id 1 next to every argument it was given, whatever
    happens afterwards, and appends nothing else but log lines.  When the
    reply parses and [max_log_level] can be read (the exchange is logged
    before returning), it returns the whole parsed reply; when the reply
    parses but [max_log_level] cannot be read it raises that error, and
    when the reply does not parse it raises ValueError, in both cases
    after the request went out.  It is [get_global_setting] that takes
    the result field out of the reply (an empty mapping when it is
    absent) and returns that field's value entry. *)
Theorem jsonrpc_request_and_reply h kwargs s :
  Dict.mem "id" kwargs = false ->
  Dict.mem "jsonrpc" kwargs = false ->
  (* the request *)
  (Dict.lookup (envelope kwargs) "jsonrpc" = Some (PyStr "2.0") /\
   Dict.lookup (envelope kwargs) "id" = Some (PyInt 1) /\
   forall k v, Dict.lookup kwargs k = Some v ->
               Dict.lookup (envelope kwargs) k = Some v) /\
  (* it is always sent *)
  (exists t,
     snd (jsonrpc h kwargs s) =
       add_events s (ExecuteJSONRPC (envelope kwargs) :: t) /\
     forallb is_xlog t = true) /\
  (* what comes back *)
  (forall reply max_log_level,
     loads h (executeJSONRPC h (trace s) (dumps h (envelope kwargs))) = Some reply ->
     int h (get_setting h "max_log_level" (PyInt 0)) = Ret max_log_level ->
     fst (jsonrpc h kwargs s) = Ret reply) /\
  (forall reply e,
     loads h (executeJSONRPC h (trace s) (dumps h (envelope kwargs))) = Some reply ->
     int h (get_setting h "max_log_level" (PyInt 0)) = Raise e ->
     fst (jsonrpc h kwargs s) = Raise e) /\
  (loads h (executeJSONRPC h (trace s) (dumps h (envelope kwargs))) = None ->
   fst (jsonrpc h kwargs s) = Raise ValueError) /\
  (* the caller that reads the result field *)
  (forall setting fields max_log_level,
     kwargs = [("method", PyStr "Settings.GetSettingValue");
               ("params", PyDict [("setting", PyStr setting)])] ->
     loads h (executeJSONRPC h (trace s) (dumps h (envelope kwargs))) =
       Some (PyDict fields) ->
     int h (get_setting h "max_log_level" (PyInt 0)) = Ret max_log_level ->
     fst (get_global_setting h setting s) =
       match or_default (Dict.lookup fields "result") (PyDict []) with
       | PyDict result => Ret (or_default (Dict.lookup result "value") PyNone)
       | _ => Raise AttributeError
       end).
Proof.
  intros Hid Hrpc.
  split; [|split; [|split; [|split; [|split]]]].
  - rewrite (envelope_fresh _ Hid Hrpc). repeat split.
    + apply lookup_update_same.
    + rewrite lookup_update_other by discriminate. apply lookup_update_same.
    + intros k v Hk.
      assert (k <> "id")
        by (intros ->; rewrite (mem_false_lookup _ _ Hid) in Hk; discriminate).
      assert (k <> "jsonrpc")
        by (intros ->; rewrite (mem_false_lookup _ _ Hrpc) in Hk; discriminate).
      rewrite !lookup_update_other by congruence. exact Hk.
  - destruct (loads h (executeJSONRPC h (trace s) (dumps h (envelope kwargs))))
      as [reply|] eqn:Hreply.
    + destruct (int h (get_setting h "max_log_level" (PyInt 0)))
        as [lvl | e] eqn:Hint.
      * destruct (jsonrpc_run h kwargs s reply lvl Hreply Hint)
          as (t & Ht & Hlog & _).
        exists t. now rewrite Ht.
      * exists []. now rewrite (jsonrpc_level_unreadable h kwargs s reply e).
    + exists []. now rewrite (jsonrpc_unreadable h kwargs s Hreply).
  - intros reply lvl Hreply Hint.
    destruct (jsonrpc_run h kwargs s reply lvl Hreply Hint) as (t & Ht & _).
    now rewrite Ht.
  - intros reply e Hreply Hint.
    now rewrite (jsonrpc_level_unreadable h kwargs s reply e).
  - intros Hreply. now rewrite (jsonrpc_unreadable h kwargs s Hreply).
  - intros setting fields lvl Hkw Hreply Hint.
    destruct (jsonrpc_run h kwargs s _ lvl Hreply Hint) as (t & Ht & _).
    subst kwargs.
    unfold get_global_setting. unfold bind at 1. rewrite Ht.
    cbv [dict_get bind ret raise fst or_default].
    destruct (Dict.lookup fields "result") as [[]|]; reflexivity.
Qed.

Lemma jsonrpc_request_and_reply_witness :
  (exists t,
     snd (jsonrpc (DemoRemote.answering DemoRemote.setting_reply)
            DemoRemote.get_debug Demo.fresh) =
       add_events Demo.fresh
         (ExecuteJSONRPC (DemoRemote.get_debug ++
                          [("id", PyInt 1); ("jsonrpc", PyStr "2.0")]) :: t) /\
     forallb is_xlog t = true) /\
  fst (jsonrpc (DemoRemote.answering DemoRemote.setting_reply)
         DemoRemote.get_debug Demo.fresh) = Ret DemoRemote.setting_reply /\
  fst (get_global_setting (DemoRemote.answering DemoRemote.setting_reply)
         "debug.showloginfo" Demo.fresh) = Ret (PyBool true) /\
  fst (jsonrpc DemoExtra.unreadable_level DemoRemote.get_debug Demo.fresh) =
    Raise ValueError /\
  fst (jsonrpc DemoExtra.garbled DemoRemote.get_debug Demo.fresh) =
    Raise ValueError.
Proof.
  destruct (jsonrpc_request_and_reply
              (DemoRemote.answering DemoRemote.setting_reply)
              DemoRemote.get_debug Demo.fresh eq_refl eq_refl)
    as (_ & Hsent & Hback & _ & _ & Hget).
  split; [exact Hsent|].
  split; [exact (Hback DemoRemote.setting_reply 0 eq_refl eq_refl)|].
  split.
  { exact (Hget "debug.showloginfo"
             [("id", PyInt 1); ("jsonrpc", PyStr "2.0");
              ("result", PyDict [("value", PyBool true)])] 0
             eq_refl eq_refl eq_refl). }
  split.
  - apply (proj1 (proj2 (proj2 (proj2
             (jsonrpc_request_and_reply DemoExtra.unreadable_level
                DemoRemote.get_debug Demo.fresh eq_refl eq_refl))))
             Demo.ok_reply ValueError);
      reflexivity.
  - apply (proj1 (proj2 (proj2 (proj2 (proj2
             (jsonrpc_request_and_reply DemoExtra.garbled
                DemoRemote.get_debug Demo.fresh eq_refl eq_refl)))))).
    reflexivity.
Defined.

(** ** A whole session *)

(** X11: [resume] takes back what the activation before it did, by the
    same settings.  Run from the state an activation left, on a healthy
    host it runs to its end; the calls of a [resume] that runs to its end
    are the unmute request exactly when mute is stored as the word true
    or not stored at all (the condition under which the activation
    muted), followed by the on-action of the very display method the
    activation resolved, and the monitor attribute is then removed; a
    [resume] that is cut short has made the first few of these calls. *)
Theorem resume_mirrors_activation h s i j name title function args_off args_on p :
  int h (get_setting h "display_method" (PyInt 0)) = Ret i ->
  getitem DISPLAY_METHODS i =
    Ret (display_entry name title function args_off args_on) ->
  int h (get_setting h "power_method" (PyInt 0)) = Ret j ->
  getitem POWER_METHODS j = Ret p ->
  (healthy h -> fst (resume h (snd (onInit h s))) = Ret tt) /\
  exists t,
    trace (snd (resume h (snd (onInit h s)))) = trace (snd (onInit h s)) ++ t /\
    (fst (resume h (snd (onInit h s))) = Ret tt ->
     filter is_call t =
       (if (getSetting h "mute" =? "")%string ||
           (getSetting h "mute" =? "true")%string
        then [ExecuteJSONRPC (mute_request false)] else []) ++
       calls (PyStr function) args_on [] /\
     monitor (self (snd (resume h (snd (onInit h s))))) = Deleted) /\
    (exists rest,
       (if (getSetting h "mute" =? "")%string ||
           (getSetting h "mute" =? "true")%string
        then [ExecuteJSONRPC (mute_request false)] else []) ++
       calls (PyStr function) args_on [] = filter is_call t ++ rest).
Proof.
  intros Hi Hd Hj Hp.
  destruct (onInit_attributes h s i j _ _ Hi Hd Hj Hp) as (Hdisplay & _ & Hmute & _).
  split.
  - intros Hh. apply (resume_returns h Hh). rewrite Hdisplay.
    exact (getitem_in _ _ _ Hd).
  - pose proof (resume_calls h (snd (onInit h s)) _ _ _ _ _ Hdisplay) as H.
    rewrite Hmute, mute_gate in H.
    destruct (marks_at_explicit _ _ _ _ H) as (t & Ht & Hret & Hpre).
    exists t. split; [assumption|]. split; [|exact Hpre].
    intros Hr. split; [exact (Hret tt Hr)|].
    now apply resume_removes_monitor.
Qed.

Lemma resume_mirrors_activation_witness :
  healthy DemoResume.cec /\
  fst (resume DemoResume.cec (snd (onInit DemoResume.cec Demo.fresh))) = Ret tt /\
  exists t,
    trace (snd (resume DemoResume.cec (snd (onInit DemoResume.cec Demo.fresh)))) =
      trace (snd (onInit DemoResume.cec Demo.fresh)) ++ t /\
    filter is_call t =
      [ExecuteJSONRPC (mute_request false);
       Dispatch "run_builtin" [PyStr "CECActivateSource"] [];
       ExecuteBuiltin "CECActivateSource" true] /\
    monitor (self (snd (resume DemoResume.cec
                          (snd (onInit DemoResume.cec Demo.fresh))))) = Deleted.
Proof.
  assert (Hh : healthy DemoResume.cec).
  { split; [exists 0; reflexivity|].
    split; intros; eexists; reflexivity. }
  destruct (resume_mirrors_activation DemoResume.cec Demo.fresh 1 0
              "cec-builtin" "CEC (buil-in)" "run_builtin"
              (strs ["CECStandby"]) (strs ["CECActivateSource"])
              power_do_nothing eq_refl eq_refl eq_refl eq_refl)
    as (Hreturns & t & Ht & Hcalls & _).
  split; [exact Hh|]. split; [exact (Hreturns Hh)|].
  exists t. split; [exact Ht|]. exact (Hcalls (Hreturns Hh)).
Defined.
